(** * GPS streamer: the NMEA batch pipeline of [server-setup/src/main.py]

    A shallow embedding of the conversion helpers, the four point builders,
    the per-sentence router and the batch loop, followed by the properties
    the specification states about them.

    Python values are a small tagged union, floats are binary64 (the
    kernel's primitive floats), dictionaries are [gmap]s, exceptions are an
    explicit result type, and the process-wide [stats] dictionary, the clock
    and the logger are threaded through a state-and-exception monad. *)

From Stdlib Require Import ZArith String Ascii Floats DecimalString List Bool
  Sorted Lia.
From stdpp Require Import gmap strings list fin_maps.

Local Open Scope Z_scope.

(** ** Python values and exceptions *)

(** The exception classes the pipeline can meet.  All of them derive from
    [Exception], so a bare [except Exception] catches every one. *)
Inductive exn :=
| ValueError
| TypeError
| OverflowError
| ParseError
| HTTPException (status : Z).

Inductive result (A : Type) :=
| Ok (a : A)
| Raise (e : exn).
Arguments Ok {A} a.
Arguments Raise {A} e.

#[global] Instance result_ret : MRet result := fun A a => Ok a.

#[global] Instance result_bind : MBind result := fun A B k r =>
  match r with
  | Ok a => k a
  | Raise e => Raise e
  end.

(** [try: body except (classes): handler] for code without side effects. *)
Definition try_except {A} (body : result A) (classes : exn -> bool)
    (handler : result A) : result A :=
  match body with
  | Ok a => Ok a
  | Raise e => if classes e then handler else Raise e
  end.

(** The values an attribute of a decoded sentence, or a field of a point,
    can hold: [None], an [int], a [float], a [str], or an object of some
    other class (a [datetime.time], say), known by its truth value and by
    the text [str()] gives for it. *)
Inductive pyval :=
| PyNone
| PyInt (z : Z)
| PyFloat (f : float)
| PyStr (s : string)
| PyObj (truth : bool) (text : string).

(** ** The environment the core consumes

    The runtime's text conversions ([float(s)], [int(s)] and [str(x)] of a
    float), the NMEA decoder and the clock are not part of the repository;
    the pipeline is parametrised over them.  [None] stands for the
    [ValueError] the runtime raises on text it cannot convert. *)

Definition datetime := Z.

Definition message := gmap string pyval.

Class Env := {
  float_of_str : string -> option float;
  int_of_str : string -> option Z;
  str_of_float : float -> string;
  (** [pynmea2.parse]: the decoded sentence, or the exception raised. *)
  pynmea2_parse : string -> result message;
  (** [datetime.utcnow()]: the value of the n-th reading of the clock. *)
  clock_reading : nat -> datetime
}.

(** ** Built-in operations on values *)

(** [float(int)]: round to nearest, ties to even. *)
Definition float_of_Z (z : Z) : float :=
  SF2Prim (binary_normalize prec emax z 0 false).

Definition is_infinite (f : float) : bool :=
  match Prim2SF f with
  | S754_infinity _ => true
  | _ => false
  end.

Definition str_of_Z (z : Z) : string := NilZero.string_of_int (Z.to_int z).

Section Builtins.
Context `{Env}.

(** [float(value)] *)
Definition py_float (value : pyval) : result float :=
  match value with
  | PyNone => Raise TypeError
  | PyInt z =>
      let f := float_of_Z z in
      if is_infinite f then Raise OverflowError else Ok f
  | PyFloat f => Ok f
  | PyStr s =>
      match float_of_str s with
      | Some f => Ok f
      | None => Raise ValueError
      end
  | PyObj _ _ => Raise TypeError
  end.

(** [int(value)]: a float is truncated towards zero; an infinity raises
    [OverflowError] and a NaN raises [ValueError]. *)
Definition py_int (value : pyval) : result Z :=
  match value with
  | PyNone => Raise TypeError
  | PyInt z => Ok z
  | PyFloat f =>
      match Prim2SF f with
      | S754_zero _ => Ok 0
      | S754_infinity _ => Raise OverflowError
      | S754_nan => Raise ValueError
      | S754_finite s m e =>
          let a := Z.shiftl (Z.pos m) e in
          Ok (if s then - a else a)
      end
  | PyStr s =>
      match int_of_str s with
      | Some z => Ok z
      | None => Raise ValueError
      end
  | PyObj _ _ => Raise TypeError
  end.

(** [str(value)] *)
Definition py_str (value : pyval) : string :=
  match value with
  | PyNone => "None"
  | PyInt z => str_of_Z z
  | PyFloat f => str_of_float f
  | PyStr s => s
  | PyObj _ text => text
  end.

End Builtins.

(** [value is not None] *)
Definition is_not_none (value : pyval) : bool :=
  match value with
  | PyNone => false
  | _ => true
  end.

(** [value != ''] *)
Definition ne_empty (value : pyval) : bool :=
  match value with
  | PyStr s => negb (String.eqb s "")
  | _ => true
  end.

(** The truth value of [value] in a condition. *)
Definition truthy (value : pyval) : bool :=
  match value with
  | PyNone => false
  | PyInt z => negb (z =? 0)
  | PyFloat f => negb (PrimFloat.eqb f 0%float)
  | PyStr s => negb (String.eqb s "")
  | PyObj truth _ => truth
  end.

(** ** Conversion helpers *)

Definition ValueError_or_TypeError (e : exn) : bool :=
  match e with
  | ValueError | TypeError => true
  | _ => false
  end.

Section Helpers.
Context `{Env}.

Definition safe_float (value : pyval) : result (option float) :=
  try_except
    (if is_not_none value && ne_empty value
     then (f ← py_float value; Ok (Some f))
     else Ok None)
    ValueError_or_TypeError
    (Ok None).

Definition safe_int (value : pyval) : result (option Z) :=
  try_except
    (if is_not_none value && ne_empty value
     then (z ← py_int value; Ok (Some z))
     else Ok None)
    ValueError_or_TypeError
    (Ok None).

End Helpers.

(** ** Text operations of [str] *)

(** The characters [str.strip()] removes (code points below 256 for which
    [str.isspace()] holds). *)
Definition is_space (c : ascii) : bool :=
  let n := nat_of_ascii c in
  ((9 <=? n) && (n <=? 13) || (28 <=? n) && (n <=? 32)
   || (n =? 133) || (n =? 160))%nat.

Fixpoint lstrip (s : string) : string :=
  match s with
  | String c rest => if is_space c then lstrip rest else s
  | EmptyString => EmptyString
  end.

Definition reverse_string (s : string) : string :=
  string_of_list_ascii (List.rev (list_ascii_of_string s)).

(** [s.strip()] *)
Definition strip (s : string) : string :=
  reverse_string (lstrip (reverse_string (lstrip s))).

(** [s.startswith('$')] *)
Definition startswith_dollar (s : string) : bool :=
  match s with
  | String c _ => Ascii.eqb c "$"
  | EmptyString => false
  end.

(** [c in s] for a single character [c]. *)
Fixpoint contains (c : ascii) (s : string) : bool :=
  match s with
  | String d rest => Ascii.eqb c d || contains c rest
  | EmptyString => false
  end.

Definition LF : ascii := ascii_of_nat 10.
Definition CR : ascii := ascii_of_nat 13.

(** [s[:6]] *)
Definition prefix6 (s : string) : string := substring 0 6 s.

(** [s.replace('\r\n', '\n')] *)
Fixpoint replace_crlf (s : string) : string :=
  match s with
  | String c rest =>
      match rest with
      | String d rest' =>
          if Ascii.eqb c CR && Ascii.eqb d LF
          then String LF (replace_crlf rest')
          else String c (replace_crlf rest)
      | EmptyString => s
      end
  | EmptyString => EmptyString
  end.

(** [s.replace('\r', '\n')] *)
Fixpoint replace_cr (s : string) : string :=
  match s with
  | String c rest => String (if Ascii.eqb c CR then LF else c) (replace_cr rest)
  | EmptyString => EmptyString
  end.

(** [s.split('\n')]: the pieces between line feeds, empty ones included. *)
Fixpoint split_lf (s : string) : list string :=
  match s with
  | String c rest =>
      match split_lf rest with
      | piece :: pieces =>
          if Ascii.eqb c LF then EmptyString :: piece :: pieces
          else String c piece :: pieces
      | [] => [String c EmptyString]
      end
  | EmptyString => [EmptyString]
  end.

(** [f'{i:02d}'] *)
Definition fmt02d (i : nat) : string :=
  if (i <? 10)%nat then "0" +:+ str_of_Z (Z.of_nat i) else str_of_Z (Z.of_nat i).

(** [','.join(items)] *)
Definition join_comma (items : list string) : string := String.concat "," items.

(** ** Measurement points *)

(** An [influxdb_client.Point]: measurement name, time, and the field
    dictionary ([field] overwrites a key already present). *)
Record Point := mkPoint {
  measurement : string;
  time : option datetime;
  fields : gmap string pyval
}.

Definition new_point (name : string) : Point :=
  {| measurement := name; time := None; fields := ∅ |}.

Definition field (field_name : string) (value : pyval) (point : Point) : Point :=
  {| measurement := measurement point;
     time := time point;
     fields := <[field_name := value]> (fields point) |}.

Definition set_time (timestamp : datetime) (point : Point) : Point :=
  {| measurement := measurement point;
     time := Some timestamp;
     fields := fields point |}.

(** ** Decoded sentences *)

Definition hasattr (msg : message) (attr : string) : bool :=
  bool_decide (is_Some (msg !! attr)).

(** [getattr(msg, attr, None)]; also [msg.attr] where a [hasattr] test
    guards the access. *)
Definition getattr (msg : message) (attr : string) : pyval :=
  default PyNone (msg !! attr).

(** A converter handed to [add_field_if_valid]. *)
Definition converter := pyval -> result (option pyval).

Section Converters.
Context `{Env}.

Definition conv_safe_float (value : pyval) : result (option pyval) :=
  converted ← safe_float value; Ok (option_map PyFloat converted).

Definition conv_safe_int (value : pyval) : result (option pyval) :=
  converted ← safe_int value; Ok (option_map PyInt converted).

Definition conv_str (value : pyval) : result (option pyval) :=
  Ok (Some (PyStr (py_str value))).

(** Returns the point (updated in place by the source) and whether the
    field was added. *)
Definition add_field_if_valid (point : Point) (field_name : string)
    (value : pyval) (conv : option converter) : result (Point * bool) :=
  if is_not_none value && ne_empty value then
    converted ← match conv with
                | Some c => c value
                | None => Ok (Some value)
                end;
    match converted with
    | Some v => Ok (field field_name v point, true)
    | None => Ok (point, false)
    end
  else Ok (point, false).

(** The loop shared by the four builders:
    [for attr, field, converter in mappings: if hasattr(msg, attr): ...],
    carrying the point and the [fields_added] flag. *)
Fixpoint add_mapped_fields (msg : message)
    (mappings : list (string * string * converter))
    (point : Point) (fields_added : bool) : result (Point * bool) :=
  match mappings with
  | [] => Ok (point, fields_added)
  | (attr, field_name, conv) :: rest =>
      if hasattr msg attr then
        '(point', added) ← add_field_if_valid point field_name
                             (getattr msg attr) (Some conv);
        add_mapped_fields msg rest point' (fields_added || added)
      else add_mapped_fields msg rest point fields_added
  end.

End Converters.

(** [for i in range(...)] over a loop state, stopping at the first
    exception. *)
Fixpoint for_range {S : Type} (indices : list nat)
    (body : nat -> S -> result S) (s : S) : result S :=
  match indices with
  | [] => Ok s
  | i :: rest => s' ← body i s; for_range rest body s'
  end.

(** ** Process state: statistics, clock, decoder calls and log *)

(** The global [stats] dictionary.  [last_update] holds the timestamp whose
    ISO text the source stores. *)
Record Stats := mkStats {
  sentences_received : Z;
  sentences_parsed : Z;
  points_written : Z;
  last_position : option (float * float);
  last_update : option datetime
}.

Definition initial_stats : Stats :=
  {| sentences_received := 0; sentences_parsed := 0; points_written := 0;
     last_position := None; last_update := None |}.

(** What the logger is handed, one constructor per logging call of the
    pipeline. *)
Inductive log_record :=
| DebugPositionPoint (sentence_type : string) (lat lon : float)
| DebugParsed (sentence_type : string)
| DebugNoPoint (sentence_type : string)
| WarningParserError (sentence_type : string) (e : exn)
| DebugNoParserAvailable (sentence_type : string)
| WarningNmeaParseError (sentence_type : string) (e : exn).

Record World := mkWorld {
  stats : Stats;
  (** how many times [datetime.utcnow()] has been called *)
  clock_reads : nat;
  (** the arguments [pynmea2.parse] has been called with, oldest first *)
  decoder_calls : list string;
  (** the records logged, oldest first *)
  logged : list log_record
}.

Definition initial_world : World :=
  {| stats := initial_stats; clock_reads := 0%nat; decoder_calls := [];
     logged := [] |}.

(** Code that reads and writes the process state and may raise; the state
    reached before an exception is kept. *)
Definition M (A : Type) : Type := World -> result A * World.

#[global] Instance M_ret : MRet M := fun A a w => (Ok a, w).

#[global] Instance M_bind : MBind M := fun A B k m w =>
  match m w with
  | (Ok a, w') => k a w'
  | (Raise e, w') => (Raise e, w')
  end.

Definition lift {A} (r : result A) : M A := fun w => (r, w).

(** [try: body except Exception as e: handler(e)] *)
Definition try_except_Exception {A} (body : M A) (handler : exn -> M A) : M A :=
  fun w =>
    match body w with
    | (Ok a, w') => (Ok a, w')
    | (Raise e, w') => handler e w'
    end.

Definition update_stats (f : Stats -> Stats) : M unit := fun w =>
  (Ok tt, {| stats := f (stats w); clock_reads := clock_reads w;
             decoder_calls := decoder_calls w; logged := logged w |}).

Definition log (r : log_record) : M unit := fun w =>
  (Ok tt, {| stats := stats w; clock_reads := clock_reads w;
             decoder_calls := decoder_calls w; logged := logged w ++ [r] |}).

Definition set_last_position (lat lon : float) (timestamp : datetime)
    (s : Stats) : Stats :=
  {| sentences_received := sentences_received s;
     sentences_parsed := sentences_parsed s;
     points_written := points_written s;
     last_position := Some (lat, lon);
     last_update := Some timestamp |}.

Definition add_sentences_parsed (n : Z) (s : Stats) : Stats :=
  {| sentences_received := sentences_received s;
     sentences_parsed := sentences_parsed s + n;
     points_written := points_written s;
     last_position := last_position s;
     last_update := last_update s |}.

Definition add_sentences_received (n : Z) (s : Stats) : Stats :=
  {| sentences_received := sentences_received s + n;
     sentences_parsed := sentences_parsed s;
     points_written := points_written s;
     last_position := last_position s;
     last_update := last_update s |}.

Section Effects.
Context `{Env}.

(** [datetime.utcnow()] *)
Definition utcnow : M datetime := fun w =>
  (Ok (clock_reading (clock_reads w)),
   {| stats := stats w; clock_reads := S (clock_reads w);
      decoder_calls := decoder_calls w; logged := logged w |}).

(** [pynmea2.parse(sentence)] *)
Definition decode (sentence : string) : M message := fun w =>
  (pynmea2_parse sentence,
   {| stats := stats w; clock_reads := clock_reads w;
      decoder_calls := decoder_calls w ++ [sentence]; logged := logged w |}).

End Effects.

(** ** Point builders *)

#[local] Set Warnings "-inexact-float".

Section Builders.
Context `{Env}.

Definition position_field_mappings : list (string * string * converter) :=
  [ ("altitude", "altitude", conv_safe_float);
    ("gps_qual", "fix_quality", conv_safe_int);
    ("num_sats", "satellites", conv_safe_int);
    ("horizontal_dil", "hdop", conv_safe_float);
    ("spd_over_grnd", "speed_knots", conv_safe_float);
    ("true_course", "course", conv_safe_float);
    ("timestamp", "gps_time", conv_str) ].

(** "Add speed conversions if speed exists". *)
Definition add_speed_conversions (msg : message) (point : Point) : result Point :=
  if hasattr msg "spd_over_grnd" && truthy (getattr msg "spd_over_grnd") then
    speed ← safe_float (getattr msg "spd_over_grnd");
    match speed with
    | Some speed =>
        Ok (field "speed_kmh" (PyFloat (speed * 1.852)%float)
              (field "speed_mph" (PyFloat (speed * 1.15078)%float) point))
    | None => Ok point
    end
  else Ok point.

Definition create_position_point (msg : message) (timestamp : datetime)
    (sentence_type : string) : M (option Point) :=
  if negb (hasattr msg "latitude" && hasattr msg "longitude"
           && truthy (getattr msg "latitude")
           && truthy (getattr msg "longitude"))
  then mret None
  else
    lat ← lift (safe_float (getattr msg "latitude"));
    lon ← lift (safe_float (getattr msg "longitude"));
    match lat, lon with
    | Some lat, Some lon =>
        let point :=
          set_time timestamp
            (field "longitude" (PyFloat lon)
               (field "latitude" (PyFloat lat) (new_point "gps_position"))) in
        '(point, _) ← lift (add_mapped_fields msg position_field_mappings
                              point false);
        point ← lift (add_speed_conversions msg point);
        let point := field "source_sentence" (PyStr sentence_type) point in
        _ ← update_stats (set_last_position lat lon timestamp);
        _ ← log (DebugPositionPoint sentence_type lat lon);
        mret (Some point)
    | _, _ => mret None
    end.

Definition satellite_basic_fields : list (string * string * converter) :=
  [ ("num_messages", "total_messages", conv_safe_int);
    ("msg_num", "message_number", conv_safe_int);
    ("num_sv_in_view", "satellites_in_view", conv_safe_int) ].

(** One turn of [for i in range(1, 5)], on the point, the
    [satellites_processed] count and the [fields_added] flag. *)
Definition satellite_slot (msg : message) (i : nat)
    (st : Point * Z * bool) : result (Point * Z * bool) :=
  let '(point, satellites_processed, fields_added) := st in
  let sv_prn := getattr msg ("sv_prn_" +:+ fmt02d i) in
  if truthy sv_prn && ne_empty sv_prn then
    sat_prn ← safe_int sv_prn;
    match sat_prn with
    | Some n =>
        if n =? 0 then Ok st
        else
          let sat := "sat_" +:+ str_of_Z n in
          let sat_fields :=
            [ ("elevation_" +:+ fmt02d i, sat +:+ "_elevation", conv_safe_float);
              ("azimuth_" +:+ fmt02d i, sat +:+ "_azimuth", conv_safe_float);
              ("snr_" +:+ fmt02d i, sat +:+ "_snr", conv_safe_float) ] in
          let point := field (sat +:+ "_prn") (PyInt n) point in
          '(point, _) ← add_mapped_fields msg sat_fields point false;
          Ok (point, satellites_processed + 1, true)
    | None => Ok st
    end
  else Ok st.

(** The body of [create_satellite_point] up to its [return]: the point as
    built and the [fields_added] flag. *)
Definition build_satellite_point (msg : message) (timestamp : datetime)
    : result (Point * bool) :=
  let point := set_time timestamp (new_point "satellite_data") in
  '(point, fields_added) ← add_mapped_fields msg satellite_basic_fields
                             point false;
  '(point, satellites_processed, fields_added) ←
     for_range (seq 1 4) (satellite_slot msg) (point, 0, fields_added);
  let point :=
    if 0 <? satellites_processed
    then field "satellites_processed" (PyInt satellites_processed) point
    else point in
  Ok (field "source_sentence" (PyStr "$GPGSV") point, fields_added).

Definition create_satellite_point (msg : message) (timestamp : datetime)
    : result (option Point) :=
  '(point, fields_added) ← build_satellite_point msg timestamp;
  Ok (if fields_added : bool then Some point else None).

(** One turn of [for i in range(1, 13)], on the point, the
    [active_satellites] list and the [fields_added] flag. *)
Definition active_satellite_slot (msg : message) (i : nat)
    (st : Point * list Z * bool) : result (Point * list Z * bool) :=
  let '(point, active_satellites, fields_added) := st in
  let sv_id := getattr msg ("sv_id" +:+ fmt02d i) in
  if truthy sv_id && ne_empty sv_id then
    sat_id ← safe_int sv_id;
    match sat_id with
    | Some n =>
        if n =? 0 then Ok st
        else Ok (field ("active_sat_" +:+ str_of_Z (Z.of_nat i)) (PyInt n) point,
                 active_satellites ++ [n], true)
    | None => Ok st
    end
  else Ok st.

Definition dop_fields : list (string * string * converter) :=
  [ ("pdop", "pdop", conv_safe_float);
    ("hdop", "hdop", conv_safe_float);
    ("vdop", "vdop", conv_safe_float) ].

(** [if hasattr(msg, attr) and msg.attr: point.field(name, str(msg.attr))] *)
Definition add_text_field (msg : message) (attr field_name : string)
    (st : Point * bool) : Point * bool :=
  if hasattr msg attr && truthy (getattr msg attr)
  then (field field_name (PyStr (py_str (getattr msg attr))) (fst st), true)
  else st.

Definition build_dop_point (msg : message) (timestamp : datetime)
    : result (Point * bool) :=
  let point := set_time timestamp (new_point "gps_dop_data") in
  let '(point, fields_added) := add_text_field msg "mode" "mode" (point, false) in
  '(point, fields_added) ←
     (if hasattr msg "mode_fix_type" && truthy (getattr msg "mode_fix_type") then
        fix_type ← safe_int (getattr msg "mode_fix_type");
        match fix_type with
        | Some n =>
            if n =? 0 then Ok (point, fields_added)
            else Ok (field "fix_type" (PyInt n) point, true)
        | None => Ok (point, fields_added)
        end
      else Ok (point, fields_added));
  '(point, active_satellites, fields_added) ←
     for_range (seq 1 12) (active_satellite_slot msg) (point, [], fields_added);
  let '(point, fields_added) :=
    match active_satellites with
    | [] => (point, fields_added)
    | _ :: _ =>
        (field "active_satellites_list"
           (PyStr (join_comma (map str_of_Z active_satellites)))
           (field "active_satellites_count"
              (PyInt (Z.of_nat (length active_satellites))) point),
         true)
    end in
  '(point, fields_added) ← add_mapped_fields msg dop_fields point fields_added;
  let '(point, fields_added) :=
    add_text_field msg "system_id" "system_id" (point, fields_added) in
  Ok (field "source_sentence" (PyStr "$GPGSA") point, fields_added).

Definition create_dop_point (msg : message) (timestamp : datetime)
    : result (option Point) :=
  '(point, fields_added) ← build_dop_point msg timestamp;
  Ok (if fields_added : bool then Some point else None).

Definition nav_fields : list (string * string * converter) :=
  [ ("true_track", "true_track_degrees", conv_safe_float);
    ("mag_track", "magnetic_track_degrees", conv_safe_float);
    ("spd_over_grnd_kts", "speed_knots", conv_safe_float);
    ("spd_over_grnd_kmph", "speed_kmh", conv_safe_float) ].

Definition build_navigation_point (msg : message) (timestamp : datetime)
    : result (Point * bool) :=
  let point := set_time timestamp (new_point "gps_navigation_data") in
  '(point, fields_added) ← add_mapped_fields msg nav_fields point false;
  let '(point, fields_added) :=
    add_text_field msg "faa_mode" "faa_mode" (point, fields_added) in
  Ok (field "source_sentence" (PyStr "$GPVTG") point, fields_added).

Definition create_navigation_point (msg : message) (timestamp : datetime)
    : result (option Point) :=
  '(point, fields_added) ← build_navigation_point msg timestamp;
  Ok (if fields_added : bool then Some point else None).

End Builders.

(** ** Routing one sentence *)

Inductive parser :=
| PositionParser
| SatelliteParser
| DopParser
| NavigationParser.

(** The [parsers] dictionary, in insertion order; a key is a tuple of type
    keys or a single one. *)
Definition parsers : list (list string * parser) :=
  [ (["$GPGGA"; "$GPRMC"], PositionParser);
    (["$GPGSV"], SatelliteParser);
    (["$GPGSA"], DopParser);
    (["$GPVTG"], NavigationParser) ].

(** The first entry whose key holds [sentence_type], as the [for] loop over
    [parsers.items()] finds it. *)
Fixpoint find_parser (sentence_type : string)
    (table : list (list string * parser)) : option parser :=
  match table with
  | [] => None
  | (key, p) :: rest =>
      if existsb (String.eqb sentence_type) key then Some p
      else find_parser sentence_type rest
  end.

Section Pipeline.
Context `{Env}.

Definition run_parser (p : parser) (msg : message) (timestamp : datetime)
    (sentence_type : string) : M (option Point) :=
  match p with
  | PositionParser => create_position_point msg timestamp sentence_type
  | SatelliteParser => lift (create_satellite_point msg timestamp)
  | DopParser => lift (create_dop_point msg timestamp)
  | NavigationParser => lift (create_navigation_point msg timestamp)
  end.

Definition parse_nmea_sentence (sentence : string) : M (option Point) :=
  try_except_Exception
    (msg ← decode sentence;
     timestamp ← utcnow;
     let sentence_type := prefix6 sentence in
     match find_parser sentence_type parsers with
     | Some p =>
         try_except_Exception
           (point ← run_parser p msg timestamp sentence_type;
            match point with
            | Some point =>
                _ ← update_stats (add_sentences_parsed 1);
                _ ← log (DebugParsed sentence_type);
                mret (Some point)
            | None =>
                _ ← log (DebugNoPoint sentence_type);
                mret None
            end)
           (fun parse_error =>
              _ ← log (WarningParserError sentence_type parse_error);
              mret None)
     | None =>
         _ ← log (DebugNoParserAvailable sentence_type);
         mret None
     end)
    (fun e =>
       _ ← log (WarningNmeaParseError (prefix6 sentence) e);
       mret None).

(** ** The batch loop *)

(** The four values [parse_nmea_sentences] accumulates and returns. *)
Record Batch := mkBatch {
  points_to_write : list Point;
  parsed_sentences : list string;
  skipped_sentences : list string;
  sentence_type_counts : gmap string Z
}.

Definition empty_batch : Batch :=
  {| points_to_write := []; parsed_sentences := []; skipped_sentences := [];
     sentence_type_counts := ∅ |}.

(** [skipped_sentences.append(label)] *)
Definition skip (label : string) (b : Batch) : Batch :=
  {| points_to_write := points_to_write b;
     parsed_sentences := parsed_sentences b;
     skipped_sentences := skipped_sentences b ++ [label];
     sentence_type_counts := sentence_type_counts b |}.

(** [counts[sentence_type] = counts.get(sentence_type, 0) + 1] *)
Definition tally (sentence_type : string) (b : Batch) : Batch :=
  {| points_to_write := points_to_write b;
     parsed_sentences := parsed_sentences b;
     skipped_sentences := skipped_sentences b;
     sentence_type_counts :=
       <[sentence_type := default 0 (sentence_type_counts b !! sentence_type) + 1]>
         (sentence_type_counts b) |}.

(** [points_to_write.append(point); parsed_sentences.append(sentence_type)] *)
Definition keep (point : Point) (sentence_type : string) (b : Batch) : Batch :=
  {| points_to_write := points_to_write b ++ [point];
     parsed_sentences := parsed_sentences b ++ [sentence_type];
     skipped_sentences := skipped_sentences b;
     sentence_type_counts := sentence_type_counts b |}.

(** [not sentence or not sentence.startswith('$')], after the strip. *)
Definition is_invalid (sentence : string) : bool :=
  String.eqb sentence "" || negb (startswith_dollar sentence).

(** ['\n' in sentence or '\r' in sentence] *)
Definition has_embedded_newline (sentence : string) : bool :=
  contains LF sentence || contains CR sentence.

(** The [for sentence in sentences] loop, on the accumulated batch. *)
Fixpoint parse_loop (sentences : list string) (b : Batch) : M Batch :=
  match sentences with
  | [] => mret b
  | sentence :: rest =>
      let sentence := strip sentence in
      if is_invalid sentence then parse_loop rest (skip "invalid" b)
      else if has_embedded_newline sentence
      then parse_loop rest (skip "embedded-newlines" b)
      else
        let sentence_type := prefix6 sentence in
        let b := tally sentence_type b in
        point ← parse_nmea_sentence sentence;
        match point with
        | Some point => parse_loop rest (keep point sentence_type b)
        | None => parse_loop rest (skip sentence_type b)
        end
  end.

Definition parse_nmea_sentences (sentences : list string) : M Batch :=
  parse_loop sentences empty_batch.

(** ** The request handler, up to the parsed batch *)

(** The list comprehension over the normalised body:
    [[line.strip() for line in normalized.split('\n') if line.strip()]]. *)
Definition tokenize (nmea_data : string) : list string :=
  let normalized_data := replace_cr (replace_crlf nmea_data) in
  map strip
    (List.filter (fun line => negb (String.eqb (strip line) ""))
       (split_lf normalized_data)).

(** [receive_gps_data] from the decoded body to the call of
    [parse_nmea_sentences]; an empty body raises inside the handler's [try],
    whose [except Exception] turns any exception into a 500. *)
Definition receive_gps_data (raw_data : string) : M (list string * Batch) :=
  try_except_Exception
    (let nmea_data := strip raw_data in
     if String.eqb nmea_data "" then lift (Raise (HTTPException 400))
     else
       let sentences := tokenize nmea_data in
       _ ← update_stats (add_sentences_received (Z.of_nat (length sentences)));
       batch ← parse_nmea_sentences sentences;
       mret (sentences, batch))
    (fun e => lift (Raise (HTTPException 500))).

End Pipeline.

(** ** A concrete environment

    Used to run the pipeline on sample sentences: plain decimal text
    conversions (a finite float prints as mantissa and binary exponent), a
    decoder given by a table of sentences, and a clock that advances by one
    unit at every reading. *)

Fixpoint digits_value (s : string) (acc : Z) : option Z :=
  match s with
  | EmptyString => Some acc
  | String c rest =>
      let n := nat_of_ascii c in
      if ((48 <=? n) && (n <=? 57))%nat
      then digits_value rest (10 * acc + Z.of_nat (n - 48))
      else None
  end.

(** Signed decimal integers: ["42"], ["-7"], ["+3"]. *)
Definition decimal_int (s : string) : option Z :=
  match s with
  | EmptyString => None
  | String c rest =>
      if Ascii.eqb c "-" then
        match rest with
        | EmptyString => None
        | _ => Z.opp <$> digits_value rest 0
        end
      else if Ascii.eqb c "+" then
        match rest with
        | EmptyString => None
        | _ => digits_value rest 0
        end
      else digits_value s 0
  end.

Fixpoint split_at_dot (s : string) : string * option string :=
  match s with
  | EmptyString => (EmptyString, None)
  | String c rest =>
      if Ascii.eqb c "." then (EmptyString, Some rest)
      else let '(whole, frac) := split_at_dot rest in (String c whole, frac)
  end.

(** Decimal text with an optional fraction, such as ["0.0"], ["-12.25"] or
    ["7"].  The value is the quotient of two floats that hold the digits
    and the power of ten exactly, so it is correctly rounded; longer
    literals are outside this sample conversion. *)
Definition decimal_float (s : string) : option float :=
  match split_at_dot s with
  | (whole, None) => float_of_Z <$> decimal_int whole
  | (whole, Some frac) =>
      match decimal_int (whole +:+ frac) with
      | Some m =>
          let q := (float_of_Z (Z.abs m)
                    / float_of_Z (10 ^ Z.of_nat (String.length frac)))%float in
          if (Z.abs m <? 2 ^ 53) && (String.length frac <=? 22)%nat
          then Some (if String.prefix "-" whole then (- q)%float else q)
          else None
      | None => None
      end
  end.

Fixpoint lookup_sentence (table : list (string * message)) (sentence : string)
    : result message :=
  match table with
  | [] => Raise ParseError
  | (s, msg) :: rest =>
      if String.eqb s sentence then Ok msg else lookup_sentence rest sentence
  end.

Definition table_env (table : list (string * message)) : Env :=
  {| float_of_str := decimal_float;
     int_of_str := decimal_int;
     str_of_float := fun f =>
       match Prim2SF f with
       | S754_zero false => "0.0"
       | S754_zero true => "-0.0"
       | S754_infinity false => "inf"
       | S754_infinity true => "-inf"
       | S754_nan => "nan"
       | S754_finite sign m e =>
           (if sign then "-" else "") +:+ str_of_Z (Z.pos m) +:+ "p"
           +:+ str_of_Z e

       end;
     pynmea2_parse := lookup_sentence table;
     clock_reading := fun n => 1000 + Z.of_nat n |}.

(** ** Vocabulary of the properties and sample data *)

(** Latitude and longitude are both present, both truthy, and both
    converted by [safe_float]. *)
Definition position_usable `{Env} (msg : message) : Prop :=
  hasattr msg "latitude" && hasattr msg "longitude"
  && truthy (getattr msg "latitude") && truthy (getattr msg "longitude") = true
  ∧ ∃ lat lon,
      safe_float (getattr msg "latitude") = Ok (Some lat)
      ∧ safe_float (getattr msg "longitude") = Ok (Some lon).

(** The point holds a field other than [source_sentence]. *)
Definition has_data_field (point : Point) : Prop :=
  ∃ k, k ≠ "source_sentence" ∧ is_Some (fields point !! k).

(** An RMC fix of a receiver at rest: speed over ground is the float 0.0. *)
Definition rmc_at_rest : message :=
  <["latitude" := PyFloat 51.5]>
    (<["longitude" := PyFloat (-0.12)]>
       (<["spd_over_grnd" := PyFloat 0]> ∅)).

(** The same fix with the speed left as the text ["0.0"]. *)
Definition rmc_at_rest_text : message :=
  <["latitude" := PyFloat 51.5]>
    (<["longitude" := PyFloat (-0.12)]>
       (<["spd_over_grnd" := PyStr "0.0"]> ∅)).

(** A fix on the equator: latitude is the float 0.0. *)
Definition gga_on_equator : message :=
  <["latitude" := PyFloat 0]> (<["longitude" := PyFloat 10]> ∅).

(** The [fields_added] flag says whether the point holds a data field. *)
Definition flag_tracks (st : Point * bool) : Prop :=
  st.2 = true ↔ has_data_field st.1.

(** What a builder that ends in [return point if fields_added else None]
    does with the point [build] has made: emitted when it holds a field
    besides [source_sentence], dropped when it holds none. *)
Definition emits_iff_data (build : result (Point * bool))
    (create : result (option Point)) : Prop :=
  ∀ point fields_added, build = Ok (point, fields_added) →
    (has_data_field point ∧ create = Ok (Some point))
    ∨ (¬ has_data_field point ∧ create = Ok None).

(** A GSV sentence that announces eleven satellites in view and lists none. *)
Definition gsv_summary_only : message :=
  <["num_messages" := PyStr "3"]>
    (<["msg_num" := PyStr "1"]>
       (<["num_sv_in_view" := PyStr "11"]>
          (<["sv_prn_01" := PyStr ""]> ∅))).

(** A GSA sentence with every field empty. *)
Definition gsa_empty : message :=
  <["mode" := PyStr ""]>
    (<["mode_fix_type" := PyStr ""]>
       (<["sv_id01" := PyStr ""]>
          (<["pdop" := PyStr ""]>
             (<["hdop" := PyStr ""]> (<["vdop" := PyStr ""]> ∅))))).

(** The point has the given measurement name and time. *)
Definition stamped (name : string) (timestamp : datetime) (point : Point) : Prop :=
  measurement point = name ∧ time point = Some timestamp.

(** The decoder accepts the sentence. *)
Definition decodes `{Env} (sentence : string) : bool :=
  match pynmea2_parse sentence with
  | Ok _ => true
  | Raise _ => false
  end.

(** A sentence the loop counts by type and hands to the router: after the
    strip it is neither invalid nor holds an embedded newline. *)
Definition routable (sentence : string) : bool :=
  negb (is_invalid (strip sentence))
  && negb (has_embedded_newline (strip sentence)).

(** The skip entries that are type keys, as the handler filters them:
    [if sentence_type not in ["invalid", "embedded-newlines"]]. *)
Definition typed_skips (skipped : list string) : list string :=
  List.filter
    (fun label => negb (String.eqb label "invalid")
                  && negb (String.eqb label "embedded-newlines"))
    skipped.

(** How many entries of the skip list are the given label. *)
Definition count_label (label : string) (skipped : list string) : nat :=
  length (List.filter (String.eqb label) skipped).

(** The sum of the per-type counts. *)
Definition tally_total (counts : gmap string Z) : Z :=
  map_fold (fun _ n total => n + total) 0 counts.

Section BatchVocabulary.
Context `{Env}.

(** What one call of [parse_nmea_sentence] does to the process state. *)
Definition sentence_effects (sentence : string) (w : World)
    (r : option Point) (w' : World) : Prop :=
  decoder_calls w' = decoder_calls w ++ [sentence]
  ∧ clock_reads w' = (clock_reads w + if decodes sentence then 1 else 0)%nat
  ∧ (∀ point, r = Some point →
       decodes sentence = true
       ∧ time point = Some (clock_reading (clock_reads w)))
  ∧ sentences_received (stats w') = sentences_received (stats w)
  ∧ points_written (stats w') = points_written (stats w)
  ∧ sentences_parsed (stats w')
    = sentences_parsed (stats w) + match r with Some _ => 1 | None => 0 end
  ∧ ((last_position (stats w') = last_position (stats w)
      ∧ last_update (stats w') = last_update (stats w))
     ∨ ∃ point, r = Some point ∧ measurement point = "gps_position").

(** The run of the batch loop over a list of sentences, one rule per way
    through the loop body. *)
Inductive processes : list string → Batch → World → Batch → World → Prop :=
| processes_done b w : processes [] b w b w
| processes_invalid s rest b w b' w' :
    is_invalid (strip s) = true →
    processes rest (skip "invalid" b) w b' w' →
    processes (s :: rest) b w b' w'
| processes_embedded s rest b w b' w' :
    is_invalid (strip s) = false →
    has_embedded_newline (strip s) = true →
    processes rest (skip "embedded-newlines" b) w b' w' →
    processes (s :: rest) b w b' w'
| processes_parsed s rest b w point w1 b' w' :
    routable s = true →
    parse_nmea_sentence (strip s) w = (Ok (Some point), w1) →
    sentence_effects (strip s) w (Some point) w1 →
    processes rest
      (keep point (prefix6 (strip s)) (tally (prefix6 (strip s)) b)) w1 b' w' →
    processes (s :: rest) b w b' w'
| processes_skipped s rest b w w1 b' w' :
    routable s = true →
    parse_nmea_sentence (strip s) w = (Ok None, w1) →
    sentence_effects (strip s) w None w1 →
    processes rest
      (skip (prefix6 (strip s)) (tally (prefix6 (strip s)) b)) w1 b' w' →
    processes (s :: rest) b w b' w'.

End BatchVocabulary.

(** A ["$"]-led line broken by a line feed, as [parse_nmea_sentences] may
    be handed by a caller other than the tokenizer. *)
Definition broken_sentence : string := "$GP" +:+ String LF "GGA,1".

(** A message whose message count is an infinite float: [safe_int] raises
    [OverflowError] inside the satellite builder. *)
Definition gsv_overflowing : message :=
  <["num_messages" := PyFloat infinity]> ∅.

(** A decoder table for sample batches: one RMC fix, a GSV sentence that
    makes its builder raise, a GSV summary, and a ZDA sentence, for which
    no builder is registered. *)
Definition sample_env : Env :=
  table_env
    [ ("$GPRMC,fix", rmc_at_rest);
      ("$GPGSV,overflow", gsv_overflowing);
      ("$GPGSV,3,1,11", gsv_summary_only);
      ("$GPZDA,201530.00,04,07,2002", ∅) ].

(** The type keys with a registered builder. *)
Definition registered_keys : list string :=
  ["$GPGGA"; "$GPRMC"; "$GPGSV"; "$GPGSA"; "$GPVTG"].

(** The body ["\n\n"]. *)
Definition two_line_feeds : string := String LF (String LF "").

(** ** The rest of the request handler

    After the batch is parsed the handler counts the parsed and the skipped
    type keys, groups the parsed ones by category, writes the points and
    answers.  The storage client is a collaborator, like the decoder. *)

Class Storage := {
  (** whether the global [write_api] is set *)
  write_api_ready : bool;
  (** [write_api.write(bucket, record)]: returns, or raises *)
  write_points : list Point -> result unit
}.

(** The counting loop used for [parsed_counts] and [skipped_counts]:
    [counts[t] = counts.get(t, 0) + 1] for every [t] of the list. *)
Definition count_types (types : list string) : gmap string Z :=
  fold_left
    (fun counts t => <[t := default 0 (counts !! t) + 1]> counts) types ∅.

(** The [type_mapping] dictionary of the handler, in insertion order. *)
Definition type_mapping : list (list string * string) :=
  [ (["$GPGGA"; "$GPRMC"], "Position");
    (["$GPGSV"], "Satellites");
    (["$GPGSA"], "DOP/Precision");
    (["$GPVTG"], "Navigation") ].

(** One turn of the outer loop over [parsed_sentences]: the inner loop
    goes through every entry of [type_mapping] and appends the type key to
    the list of each category that holds it
    ([setdefault(category, []).append(sentence_type)]). *)
Definition group_one (groups : gmap string (list string))
    (sentence_type : string) : gmap string (list string) :=
  fold_left
    (fun groups entry =>
       if existsb (String.eqb sentence_type) (fst entry)
       then <[snd entry := default [] (groups !! snd entry) ++ [sentence_type]]>
              groups
       else groups)
    type_mapping groups.

Definition group_measurements (parsed : list string)
    : gmap string (list string) :=
  fold_left group_one parsed ∅.

(** The counting fields of the JSON answer.  [batch_summary], a text built
    in the insertion order of a dictionary, is not part of this record. *)
Record Response := mkResponse {
  response_status : string;
  sentences_processed : Z;
  response_points_written : Z;
  sentence_types : gmap string Z;
  parsed_counts : gmap string Z;
  skipped_counts : gmap string Z;
  measurement_types : gmap string Z
}.

Definition add_points_written (n : Z) (s : Stats) : Stats :=
  {| sentences_received := sentences_received s;
     sentences_parsed := sentences_parsed s;
     points_written := points_written s + n;
     last_position := last_position s;
     last_update := last_update s |}.

(** [raw_data.decode('utf-8')] of the request body, given as its bytes:
    the text, or the [UnicodeDecodeError] (a [ValueError]) raised on bytes
    that are not UTF-8. *)
Class BodyCodec := {
  decode_utf8 : string -> result string
}.

Section Handler.
Context `{Env} `{Storage} `{BodyCodec}.

(** "Write to InfluxDB": the write is attempted only when there are points
    and a client; a failed write becomes a 500. *)
Definition write_batch (points : list Point) : M unit :=
  if negb (Nat.eqb (length points) 0) && write_api_ready then
    try_except_Exception
      (_ ← lift (write_points points);
       update_stats (add_points_written (Z.of_nat (length points))))
      (fun e => lift (Raise (HTTPException 500)))
  else mret tt.

(** The handler of [POST /gps], from the bytes of the body to the answer;
    the decoding of the body stands inside the handler's [try]. *)
Definition gps_endpoint (raw_data : string) : M Response :=
  try_except_Exception
    (decoded ← lift (decode_utf8 raw_data);
     let nmea_data := strip decoded in
     if String.eqb nmea_data "" then lift (Raise (HTTPException 400))
     else
       let sentences := tokenize nmea_data in
       _ ← update_stats
             (add_sentences_received (Z.of_nat (length sentences)));
       batch ← parse_nmea_sentences sentences;
       let counted_parsed := count_types (parsed_sentences batch) in
       let counted_skipped :=
         count_types (typed_skips (skipped_sentences batch)) in
       let grouped := group_measurements (parsed_sentences batch) in
       _ ← write_batch (points_to_write batch);
       mret {| response_status := "success";
               sentences_processed := Z.of_nat (length sentences);
               response_points_written :=
                 Z.of_nat (length (points_to_write batch));
               sentence_types := sentence_type_counts batch;
               parsed_counts := counted_parsed;
               skipped_counts := counted_skipped;
               measurement_types :=
                 (fun l => Z.of_nat (length l)) <$> grouped |})
    (fun e => lift (Raise (HTTPException 500))).

End Handler.

(** A codec for bodies of ASCII bytes, which are their own UTF-8 text;
    any other byte is refused by this sample. *)
Definition ascii_codec : BodyCodec :=
  {| decode_utf8 := fun raw =>
       if forallb (fun c => (nat_of_ascii c <? 128)%nat)
            (list_ascii_of_string raw)
       then Ok raw else Raise ValueError |}.

(** A storage client that accepts every write, and one that refuses. *)
Definition accepting_storage : Storage :=
  {| write_api_ready := true; write_points := fun _ => Ok tt |}.

Definition failing_storage : Storage :=
  {| write_api_ready := true; write_points := fun _ => Raise ValueError |}.

(** ** Vocabulary of the further properties *)

(** The values a field of a stored point may hold: a number or a text. *)
Definition is_scalar (value : pyval) : bool :=
  match value with
  | PyInt _ | PyFloat _ | PyStr _ => true
  | PyNone | PyObj _ _ => false
  end.

(** The points reached from [start] by calls of [field] with scalar
    values. *)
Inductive built_from (start : Point) : Point → Prop :=
| built_start : built_from start start
| built_field k v point :
    is_scalar v = true → built_from start point →
    built_from start (field k v point).

(** The measurement each registered type key is stored under. *)
Definition measurement_of_key (key : string) : option string :=
  if String.eqb key "$GPGGA" || String.eqb key "$GPRMC" then Some "gps_position"
  else if String.eqb key "$GPGSV" then Some "satellite_data"
  else if String.eqb key "$GPGSA" then Some "gps_dop_data"
  else if String.eqb key "$GPVTG" then Some "gps_navigation_data"
  else None.

(** A point as the router stores it under a type key: the measurement is
    the one registered for the key, [source_sentence] holds the key, and
    every field is a number or a text. *)
Definition well_routed (point : Point) (key : string) : Prop :=
  measurement_of_key key = Some (measurement point)
  ∧ fields point !! "source_sentence" = Some (PyStr key)
  ∧ ∀ k v, fields point !! k = Some v → is_scalar v = true.

(** The point is a position fix. *)
Definition is_position (point : Point) : bool :=
  String.eqb (measurement point) "gps_position".

(** The statistics hold the coordinates and the time of the point. *)
Definition records_position (s : Stats) (point : Point) : Prop :=
  ∃ lat lon timestamp,
    fields point !! "latitude" = Some (PyFloat lat)
    ∧ fields point !! "longitude" = Some (PyFloat lon)
    ∧ time point = Some timestamp
    ∧ last_position s = Some (lat, lon)
    ∧ last_update s = Some timestamp.

(** The last position fix among the points, if there is one. *)
Definition last_position_point (points : list Point) : option Point :=
  last (List.filter is_position points).

(** * Properties *)

Ltac run_M :=
  unfold mbind, M_bind, mret, M_ret, lift, try_except_Exception,
    update_stats, log in *;
  simpl in *.

(** The same without unfolding the loops over constant tables. *)
Ltac step_M :=
  unfold mbind, M_bind, mret, M_ret, lift, try_except_Exception in *;
  cbv beta iota zeta in *.

(** [k ∉ [k1; ...; kn]] for distinct literal keys. *)
Ltac not_in_list :=
  let Hin := fresh "Hin" in
  intros Hin;
  repeat (apply elem_of_cons in Hin as [Hin|Hin]; [discriminate Hin|]);
  by apply elem_of_nil in Hin.

Ltac step_result :=
  unfold mbind, result_bind, mret, result_ret in *;
  cbv beta iota zeta in *.

Ltac run_result :=
  unfold mbind, result_bind, mret, result_ret, try_except in *;
  simpl in *.

(** ** The conversion helpers *)

Section HelperFacts.
Context `{Env}.

Lemma safe_float_None : safe_float PyNone = Ok None.
Proof. reflexivity. Qed.

Lemma safe_float_empty : safe_float (PyStr "") = Ok None.
Proof. reflexivity. Qed.

Lemma safe_float_float (f : float) : safe_float (PyFloat f) = Ok (Some f).
Proof. reflexivity. Qed.

Lemma safe_float_obj truth text : safe_float (PyObj truth text) = Ok None.
Proof. reflexivity. Qed.

Lemma safe_float_str (s : string) :
  s ≠ "" → safe_float (PyStr s) = Ok (float_of_str s).
Proof.
  intros Hs. unfold safe_float. simpl.
  destruct (String.eqb_spec s "") as [->|_]; [done|]. simpl.
  run_result. by destruct (float_of_str s).
Qed.

Lemma safe_float_int (z : Z) :
  is_infinite (float_of_Z z) = false →
  safe_float (PyInt z) = Ok (Some (float_of_Z z)).
Proof. intros Hz. unfold safe_float. simpl. run_result. by rewrite Hz. Qed.

Lemma safe_int_None : safe_int PyNone = Ok None.
Proof. reflexivity. Qed.

Lemma safe_int_empty : safe_int (PyStr "") = Ok None.
Proof. reflexivity. Qed.

Lemma safe_int_int (z : Z) : safe_int (PyInt z) = Ok (Some z).
Proof. reflexivity. Qed.

Lemma safe_int_obj truth text : safe_int (PyObj truth text) = Ok None.
Proof. reflexivity. Qed.

Lemma safe_int_str (s : string) :
  s ≠ "" → safe_int (PyStr s) = Ok (int_of_str s).
Proof.
  intros Hs. unfold safe_int. simpl.
  destruct (String.eqb_spec s "") as [->|_]; [done|]. simpl.
  run_result. by destruct (int_of_str s).
Qed.

(** Zero is a value, not an absence. *)
Lemma safe_conversions_keep_zero :
  safe_float (PyFloat 0) = Ok (Some 0%float)
  ∧ safe_float (PyInt 0) = Ok (Some 0%float)
  ∧ safe_int (PyInt 0) = Ok (Some 0)
  ∧ safe_int (PyFloat 0) = Ok (Some 0).
Proof. repeat split; reflexivity. Qed.

(** On [None], text and objects of other classes neither helper raises. *)
Lemma safe_conversions_total_on_text (value : pyval) :
  match value with
  | PyNone | PyStr _ | PyObj _ _ => True
  | _ => False
  end →
  (∃ r, safe_float value = Ok r) ∧ (∃ r, safe_int value = Ok r).
Proof.
  destruct value as [|z|f|s|truth text]; try done; intros _.
  - split; by eexists.
  - destruct (decide (s = "")) as [->|Hs].
    + split; by eexists.
    + rewrite safe_float_str, safe_int_str by done. split; by eexists.
  - split; by eexists.
Qed.

(** C7 (the code at the failing inputs): [float()] of an integer beyond the
    binary64 range and [int()] of an infinite float raise [OverflowError],
    which [except (ValueError, TypeError)] does not catch, so both helpers
    raise instead of returning [None]. *)
Theorem safe_conversions_let_overflow_escape :
  safe_float (PyInt (10 ^ 400)) = Raise OverflowError
  ∧ safe_int (PyFloat infinity) = Raise OverflowError.
Proof. split; vm_compute; reflexivity. Qed.

End HelperFacts.

(** ** Field helpers *)

Section FieldFacts.
Context `{Env}.

Lemma add_field_if_valid_cases point field_name value conv point' added :
  add_field_if_valid point field_name value conv = Ok (point', added) →
  (added = true ∧ ∃ v, point' = field field_name v point)
  ∨ (added = false ∧ point' = point).
Proof.
  unfold add_field_if_valid.
  destruct (is_not_none value && ne_empty value); [|intros [= <- <-]; by right].
  run_result.
  destruct (match conv with Some c => c value | None => Ok (Some value) end)
    as [[v|]|e]; intros [= <- <-]; [left|right]; eauto.
Qed.

(** The mapped-field loop writes only field names of its table. *)
Lemma add_mapped_fields_lookup msg mappings point fields_added point' added' k :
  add_mapped_fields msg mappings point fields_added = Ok (point', added') →
  k ∉ (snd ∘ fst <$> mappings) →
  fields point' !! k = fields point !! k.
Proof.
  revert point fields_added.
  induction mappings as [|[[attr name] conv] rest IH]; intros point fa.
  - by intros [= <- <-].
  - simpl. intros Hrun Hk. apply not_elem_of_cons in Hk as [Hne Hk].
    destruct (hasattr msg attr); [|by eapply IH].
    run_result.
    destruct (add_field_if_valid point name (getattr msg attr) (Some conv))
      as [[p1 a1]|e] eqn:Hadd; [|done].
    rewrite (IH _ _ Hrun Hk).
    apply add_field_if_valid_cases in Hadd as [[_ [v ->]]|[_ ->]]; [|done].
    simpl. by rewrite lookup_insert_ne.
Qed.

Lemma add_mapped_fields_measurement msg mappings point fields_added point' added' :
  add_mapped_fields msg mappings point fields_added = Ok (point', added') →
  measurement point' = measurement point ∧ time point' = time point.
Proof.
  revert point fields_added.
  induction mappings as [|[[attr name] conv] rest IH]; intros point fa.
  - by intros [= <- <-].
  - simpl. intros Hrun.
    destruct (hasattr msg attr); [|by eapply IH].
    run_result.
    destruct (add_field_if_valid point name (getattr msg attr) (Some conv))
      as [[p1 a1]|e] eqn:Hadd; [|done].
    destruct (IH _ _ Hrun) as [-> ->].
    by apply add_field_if_valid_cases in Hadd as [[_ [v ->]]|[_ ->]].
Qed.

Lemma add_speed_conversions_lookup msg point point' k :
  add_speed_conversions msg point = Ok point' →
  k ≠ "speed_mph" → k ≠ "speed_kmh" →
  fields point' !! k = fields point !! k
  ∧ measurement point' = measurement point ∧ time point' = time point.
Proof.
  unfold add_speed_conversions. intros Hrun Hmph Hkmh.
  destruct (hasattr msg "spd_over_grnd" && truthy (getattr msg "spd_over_grnd"));
    [|by injection Hrun as <-].
  run_result.
  destruct (safe_float (getattr msg "spd_over_grnd")) as [[speed|]|e];
    try done; injection Hrun as <-; [|done].
  simpl. by rewrite !lookup_insert_ne.
Qed.

End FieldFacts.

(** ** The position builder *)

Section PositionFacts.
Context `{Env}.

(** What the speed step does by design: a truthy, convertible speed adds
    both conversions. *)
Lemma add_speed_conversions_truthy msg point speed :
  hasattr msg "spd_over_grnd" = true →
  truthy (getattr msg "spd_over_grnd") = true →
  safe_float (getattr msg "spd_over_grnd") = Ok (Some speed) →
  ∃ point', add_speed_conversions msg point = Ok point'
    ∧ fields point' !! "speed_mph" = Some (PyFloat (speed * 1.15078)%float)
    ∧ fields point' !! "speed_kmh" = Some (PyFloat (speed * 1.852)%float).
Proof.
  intros Hhas Htruthy Hconv. unfold add_speed_conversions.
  rewrite Hhas, Htruthy, Hconv. eexists. split; [reflexivity|].
  simpl. split; [by rewrite lookup_insert_ne, lookup_insert_eq
                |by rewrite lookup_insert_eq].
Qed.

(** A speed of 0.0 given as text is truthy, and both conversions are
    added with the value 0.0. *)
Lemma text_zero_speed_adds_conversions timestamp w :
  float_of_str "0.0" = Some 0%float →
  ∃ point w',
    create_position_point rmc_at_rest_text timestamp "$GPRMC" w
    = (Ok (Some point), w')
    ∧ fields point !! "speed_knots" = Some (PyFloat 0)
    ∧ fields point !! "speed_mph" = Some (PyFloat 0)
    ∧ fields point !! "speed_kmh" = Some (PyFloat 0).
Proof.
  intros Hzero.
  destruct (create_position_point rmc_at_rest_text timestamp "$GPRMC" w)
    as [r w'] eqn:Hrun.
  vm_compute in Hrun, Hzero. rewrite Hzero in Hrun. vm_compute in Hrun.
  injection Hrun as <- <-.
  do 2 eexists. split; [reflexivity|]. by vm_compute.
Qed.

(** C2 (the code at the failing input): for a fix whose speed over ground
    is the float 0.0, the position builder adds [speed_knots = 0.0] but
    neither [speed_mph] nor [speed_kmh]: the truth test on the speed
    rejects zero before the "allow 0.0" test is reached. *)
Theorem zero_speed_loses_mph_and_kmh timestamp w :
  ∃ point w',
    create_position_point rmc_at_rest timestamp "$GPRMC" w
    = (Ok (Some point), w')
    ∧ fields point !! "speed_knots" = Some (PyFloat 0)
    ∧ fields point !! "speed_mph" = None
    ∧ fields point !! "speed_kmh" = None.
Proof.
  destruct (create_position_point rmc_at_rest timestamp "$GPRMC" w)
    as [r w'] eqn:Hrun.
  vm_compute in Hrun. injection Hrun as <- <-.
  do 2 eexists. split; [reflexivity|]. by vm_compute.
Qed.

End PositionFacts.

Section PositionGuard.
Context `{Env}.

Lemma position_guard_false_returns_None msg timestamp sentence_type w :
  hasattr msg "latitude" && hasattr msg "longitude"
  && truthy (getattr msg "latitude") && truthy (getattr msg "longitude") = false →
  create_position_point msg timestamp sentence_type w = (Ok None, w).
Proof. intros Hguard. unfold create_position_point. by rewrite Hguard. Qed.

(** C3, as amended: whenever the position builder returns, it returns a
    point exactly when latitude and longitude are present, truthy (not
    0.0, not empty) and converted by [safe_float]; the point is a
    [gps_position] carrying the two converted values. *)
Theorem position_point_iff_truthy_and_convertible
    msg timestamp sentence_type w r w' :
  create_position_point msg timestamp sentence_type w = (Ok r, w') →
  (is_Some r ↔ position_usable msg)
  ∧ ∀ point, r = Some point →
      measurement point = "gps_position"
      ∧ ∃ lat lon,
          safe_float (getattr msg "latitude") = Ok (Some lat)
          ∧ safe_float (getattr msg "longitude") = Ok (Some lon)
          ∧ fields point !! "latitude" = Some (PyFloat lat)
          ∧ fields point !! "longitude" = Some (PyFloat lon).
Proof.
  unfold create_position_point, position_usable.
  destruct (hasattr msg "latitude" && hasattr msg "longitude"
            && truthy (getattr msg "latitude")
            && truthy (getattr msg "longitude")) eqn:Hguard;
    cbv beta iota delta [negb].
  2:{ intros [= <- <-]. split; [|done].
      split; [by intros [? ?]|by intros [? _]]. }
  step_M.
  destruct (safe_float (getattr msg "latitude")) as [[lat|]|e1] eqn:Hlat;
    [| |done].
  2:{ destruct (safe_float (getattr msg "longitude")) as [[lon|]|e2];
        [| |done]; intros [= <- <-]; (split; [|done]);
        (split; [by intros [? ?]|by intros [_ (? & ? & ? & ?)]]). }
  destruct (safe_float (getattr msg "longitude")) as [[lon|]|e2] eqn:Hlon;
    [| |done].
  2:{ intros [= <- <-]. split; [|done].
      split; [by intros [? ?]|by intros [_ (? & ? & ? & ?)]]. }
  destruct (add_mapped_fields msg position_field_mappings _ false)
    as [[p1 a1]|e3] eqn:Hmapped; [|done].
  destruct (add_speed_conversions msg p1) as [p2|e4] eqn:Hspeed; [|done].
  unfold update_stats, log. intros [= <- <-]. split.
  { split; [intros _; split; [done|by exists lat, lon]|by eexists]. }
  intros point [= <-].
  destruct (add_speed_conversions_lookup msg p1 p2 "latitude" Hspeed)
    as (Hlat2 & Hm2 & _); [done..|].
  destruct (add_speed_conversions_lookup msg p1 p2 "longitude" Hspeed)
    as (Hlon2 & _ & _); [done..|].
  destruct (add_mapped_fields_measurement _ _ _ _ _ _ Hmapped) as [Hm1 _].
  split; [by rewrite (eq_refl : measurement (field _ _ p2) = measurement p2),
               Hm2, Hm1|].
  exists lat, lon. repeat split.
  - unfold field at 1. cbn [fields]. rewrite lookup_insert_ne by done.
    rewrite Hlat2.
    rewrite (add_mapped_fields_lookup _ _ _ _ _ _ "latitude" Hmapped).
    + cbn [fields field set_time new_point].
      by rewrite lookup_insert_ne, lookup_insert_eq.
    + cbn. not_in_list.
  - unfold field at 1. cbn [fields]. rewrite lookup_insert_ne by done.
    rewrite Hlon2.
    rewrite (add_mapped_fields_lookup _ _ _ _ _ _ "longitude" Hmapped).
    + cbn [fields field set_time new_point]. by rewrite lookup_insert_eq.
    + cbn. not_in_list.
Qed.

End PositionGuard.

(** A fix with latitude 51.5 and longitude -0.12 yields a point. *)
Lemma position_point_iff_truthy_and_convertible_witness :
  @position_usable (table_env []) rmc_at_rest.
Proof.
  refine (proj1 (proj1 (position_point_iff_truthy_and_convertible
                          (H := table_env []) rmc_at_rest 7 "$GPRMC"
                          initial_world (Some _) _ _)) _).
  - vm_compute. reflexivity.
  - by eexists.
Defined.

(** C3 fails as stated: on the equator the latitude 0.0 is present and
    converts, yet the builder returns no point. *)
Lemma zero_latitude_yields_no_point :
  hasattr gga_on_equator "latitude" = true
  ∧ hasattr gga_on_equator "longitude" = true
  ∧ @safe_float (table_env []) (getattr gga_on_equator "latitude")
    = Ok (Some 0%float)
  ∧ @safe_float (table_env []) (getattr gga_on_equator "longitude")
    = Ok (Some 10%float)
  ∧ @create_position_point (table_env []) gga_on_equator 7 "$GPGGA"
      initial_world
    = (Ok None, initial_world).
Proof. repeat split; vm_compute; reflexivity. Qed.

(** ** The satellite, DOP and navigation builders *)

Section DerivedBuilders.
Context `{Env}.

Lemma has_data_field_field k v point :
  k ≠ "source_sentence" → has_data_field (field k v point).
Proof.
  intros Hk. exists k. split; [done|]. simpl. rewrite lookup_insert_eq. by eexists.
Qed.

Lemma has_data_field_mono k v point :
  has_data_field point → has_data_field (field k v point).
Proof.
  intros (k' & Hk' & Hsome). exists k'. split; [done|]. simpl.
  destruct (decide (k = k')) as [->|Hne].
  - rewrite lookup_insert_eq. by eexists.
  - by rewrite lookup_insert_ne.
Qed.

Lemma has_data_field_source v point :
  has_data_field (field "source_sentence" v point) ↔ has_data_field point.
Proof.
  split; [|apply has_data_field_mono].
  intros (k & Hk & Hsome). exists k. split; [done|].
  simpl in Hsome. by rewrite lookup_insert_ne in Hsome.
Qed.

Lemma flag_tracks_start name timestamp :
  flag_tracks (set_time timestamp (new_point name), false).
Proof.
  split; [done|]. intros (k & _ & Hsome). simpl in Hsome.
  rewrite lookup_empty in Hsome. by destruct Hsome.
Qed.

Lemma add_mapped_fields_mono msg mappings point fields_added point' added' :
  add_mapped_fields msg mappings point fields_added = Ok (point', added') →
  has_data_field point → has_data_field point'.
Proof.
  revert point fields_added.
  induction mappings as [|[[attr name] conv] rest IH]; intros point fa.
  - by intros [= <- <-].
  - simpl. intros Hrun Hdata.
    destruct (hasattr msg attr); [|by eapply IH].
    run_result.
    destruct (add_field_if_valid point name (getattr msg attr) (Some conv))
      as [[p1 a1]|e] eqn:Hadd; [|done].
    eapply IH; [done|].
    apply add_field_if_valid_cases in Hadd as [[_ [v ->]]|[_ ->]]; [|done].
    by apply has_data_field_mono.
Qed.

Lemma add_mapped_fields_tracks msg mappings point fields_added point' added' :
  Forall (λ m, m.1.2 ≠ "source_sentence") mappings →
  add_mapped_fields msg mappings point fields_added = Ok (point', added') →
  flag_tracks (point, fields_added) → flag_tracks (point', added').
Proof.
  intros Hnames. revert point fields_added.
  induction Hnames as [|[[attr name] conv] rest Hname _ IH]; intros point fa.
  - by intros [= <- <-].
  - simpl in *. intros Hrun Htracks.
    destruct (hasattr msg attr); [|by eapply IH].
    run_result.
    destruct (add_field_if_valid point name (getattr msg attr) (Some conv))
      as [[p1 a1]|e] eqn:Hadd; [|done].
    eapply IH; [done|].
    apply add_field_if_valid_cases in Hadd as [[-> [v ->]]|[-> ->]].
    + rewrite orb_true_r. split; [intros _|done].
      by apply has_data_field_field.
    + by rewrite orb_false_r.
Qed.

Lemma add_text_field_tracks msg attr name st :
  name ≠ "source_sentence" →
  flag_tracks st → flag_tracks (add_text_field msg attr name st).
Proof.
  intros Hname Htracks. unfold add_text_field.
  destruct (hasattr msg attr && truthy (getattr msg attr)); [|done].
  split; [intros _|done]. by apply has_data_field_field.
Qed.

Lemma for_range_invariant {S} (P : S → Prop) indices body (s s' : S) :
  (∀ i t t', body i t = Ok t' → P t → P t') →
  for_range indices body s = Ok s' → P s → P s'.
Proof.
  intros Hstep. revert s.
  induction indices as [|i rest IH]; intros s; simpl.
  - by intros [= <-].
  - run_result. destruct (body i s) as [t|e] eqn:Hbody; [|done].
    intros Hrun Hs. eapply IH; [done|]. by eapply Hstep.
Qed.

Lemma satellite_slot_invariant msg i st st' :
  satellite_slot msg i st = Ok st' →
  flag_tracks (st.1.1, st.2) ∧ (0 < st.1.2 → st.2 = true) →
  flag_tracks (st'.1.1, st'.2) ∧ (0 < st'.1.2 → st'.2 = true).
Proof.
  destruct st as [[point processed] fa]. unfold satellite_slot.
  set (sv_prn := getattr msg _).
  destruct (truthy sv_prn && ne_empty sv_prn); [|by intros [= <-]].
  step_result.
  destruct (safe_int sv_prn) as [[n|]|e]; [| |done]; [|by intros [= <-]].
  destruct (n =? 0); [by intros [= <-]|].
  match goal with
  | |- context [add_mapped_fields msg ?t ?p false] =>
      destruct (add_mapped_fields msg t p false) as [[p1 a1]|e] eqn:Hmapped
  end; [|done].
  intros [= <-] _. cbn [fst snd]. split; [|done].
  split; [intros _|done].
  eapply add_mapped_fields_mono; [done|].
  apply has_data_field_field. cbn. by intros [=].
Qed.

Lemma build_satellite_point_tracks msg timestamp point fields_added :
  build_satellite_point msg timestamp = Ok (point, fields_added) →
  flag_tracks (point, fields_added).
Proof.
  unfold build_satellite_point. step_M. unfold result_bind.
  destruct (add_mapped_fields msg satellite_basic_fields _ false)
    as [[p1 fa1]|e] eqn:Hbasic; [|done].
  destruct (for_range (seq 1 4) (satellite_slot msg) (p1, 0, fa1))
    as [[[p2 processed] fa2]|e] eqn:Hslots; [|done].
  intros [= <- <-].
  assert (Htracks1 : flag_tracks (p1, fa1)).
  { eapply add_mapped_fields_tracks; [|done|apply flag_tracks_start].
    repeat constructor; simpl; by intros [=]. }
  pose proof (for_range_invariant
    (λ st, flag_tracks (st.1.1, st.2) ∧ (0 < st.1.2 → st.2 = true))
    _ _ _ _ (satellite_slot_invariant msg) Hslots) as Hinv.
  destruct Hinv as [Htracks2 Hprocessed]; [by split|].
  unfold flag_tracks in *. simpl in *.
  rewrite has_data_field_source.
  destruct (0 <? processed) eqn:Hpos; [|done].
  apply Z.ltb_lt in Hpos. split; [intros _|by intros _; apply Hprocessed].
  by apply has_data_field_field.
Qed.

Lemma active_satellite_slot_invariant msg i st st' :
  active_satellite_slot msg i st = Ok st' →
  flag_tracks (st.1.1, st.2) ∧ (st.1.2 ≠ [] → st.2 = true) →
  flag_tracks (st'.1.1, st'.2) ∧ (st'.1.2 ≠ [] → st'.2 = true).
Proof.
  destruct st as [[point active] fa]. unfold active_satellite_slot.
  set (sv_id := getattr msg _).
  destruct (truthy sv_id && ne_empty sv_id); [|by intros [= <-]].
  run_result.
  destruct (safe_int sv_id) as [[n|]|e]; [| |done]; [|by intros [= <-]].
  destruct (n =? 0); [by intros [= <-]|].
  intros [= <-] _. simpl. split; [|done].
  split; [intros _|done].
  apply has_data_field_field. simpl. by intros [=].
Qed.

Lemma build_dop_point_tracks msg timestamp point fields_added :
  build_dop_point msg timestamp = Ok (point, fields_added) →
  flag_tracks (point, fields_added).
Proof.
  unfold build_dop_point.
  pose proof (add_text_field_tracks msg "mode" "mode" _ ltac:(done)
                (flag_tracks_start "gps_dop_data" timestamp)) as Htracks0.
  destruct (add_text_field msg "mode" "mode" _) as [p0 fa0].
  step_M. unfold result_bind.
  match goal with
  | |- match ?fix_step with Ok _ => _ | Raise _ => _ end = _ → _ =>
      destruct fix_step as [[p1 fa1]|e] eqn:Hfix
  end; [|done].
  assert (Htracks1 : flag_tracks (p1, fa1)).
  { destruct (hasattr msg "mode_fix_type"
              && truthy (getattr msg "mode_fix_type"));
      [|by injection Hfix as <- <-].
    destruct (safe_int (getattr msg "mode_fix_type")) as [[n|]|e];
      [| |done]; [|by injection Hfix as <- <-].
    destruct (n =? 0); injection Hfix as <- <-; [done|].
    split; [intros _|done]. by apply has_data_field_field. }
  destruct (for_range (seq 1 12) (active_satellite_slot msg) (p1, [], fa1))
    as [[[p2 active] fa2]|e] eqn:Hslots; [|done].
  pose proof (for_range_invariant
    (λ st, flag_tracks (st.1.1, st.2) ∧ (st.1.2 ≠ [] → st.2 = true))
    _ _ _ _ (active_satellite_slot_invariant msg) Hslots) as Hinv.
  destruct Hinv as [Htracks2 _]; [by split|]. simpl in Htracks2.
  match goal with
  | |- (let '(_, _) := ?st in _) = _ → _ =>
      assert (Htracks3 : flag_tracks st); [|destruct st as [p3 fa3]]
  end.
  { destruct active as [|a rest]; [done|].
    split; [intros _|done].
    apply has_data_field_field. by intros [=]. }
  destruct (add_mapped_fields msg dop_fields p3 fa3)
    as [[p4 fa4]|e] eqn:Hdop; [|done].
  assert (Htracks4 : flag_tracks (p4, fa4)).
  { eapply add_mapped_fields_tracks; [|done..].
    repeat constructor; simpl; by intros [=]. }
  pose proof (add_text_field_tracks msg "system_id" "system_id" _
                ltac:(done) Htracks4) as Htracks5.
  destruct (add_text_field msg "system_id" "system_id" _) as [p5 fa5].
  intros [= <- <-]. unfold flag_tracks in *. simpl in *.
  by rewrite has_data_field_source.
Qed.

Lemma build_navigation_point_tracks msg timestamp point fields_added :
  build_navigation_point msg timestamp = Ok (point, fields_added) →
  flag_tracks (point, fields_added).
Proof.
  unfold build_navigation_point. step_M. unfold result_bind.
  destruct (add_mapped_fields msg nav_fields _ false)
    as [[p1 fa1]|e] eqn:Hnav; [|done].
  assert (Htracks1 : flag_tracks (p1, fa1)).
  { eapply add_mapped_fields_tracks; [|done|apply flag_tracks_start].
    repeat constructor; simpl; by intros [=]. }
  pose proof (add_text_field_tracks msg "faa_mode" "faa_mode" _
                ltac:(done) Htracks1) as Htracks2.
  destruct (add_text_field msg "faa_mode" "faa_mode" _) as [p2 fa2].
  intros [= <- <-]. unfold flag_tracks in *. simpl in *.
  by rewrite has_data_field_source.
Qed.

Lemma emits_iff_data_of_tracks build :
  (∀ point fields_added, build = Ok (point, fields_added) →
     flag_tracks (point, fields_added)) →
  emits_iff_data build
    ('(point, fields_added) ← build;
     Ok (if fields_added : bool then Some point else None)).
Proof.
  intros Htracks point fa Hbuild. specialize (Htracks _ _ Hbuild).
  rewrite Hbuild. unfold flag_tracks in Htracks. simpl in *.
  destruct fa; [left|right]; (split; [|done]).
  - by apply Htracks.
  - intros Hdata. by apply Htracks in Hdata.
Qed.

(** C8: each of the satellite, DOP and navigation builders returns the
    point it has built exactly when that point holds a field besides
    [source_sentence], and returns none when [source_sentence] is all it
    holds. *)
Theorem derived_builders_emit_iff_data (msg : message) (timestamp : datetime) :
  emits_iff_data (build_satellite_point msg timestamp)
    (create_satellite_point msg timestamp)
  ∧ emits_iff_data (build_dop_point msg timestamp)
      (create_dop_point msg timestamp)
  ∧ emits_iff_data (build_navigation_point msg timestamp)
      (create_navigation_point msg timestamp).
Proof.
  repeat split; apply emits_iff_data_of_tracks.
  - apply build_satellite_point_tracks.
  - apply build_dop_point_tracks.
  - apply build_navigation_point_tracks.
Qed.

End DerivedBuilders.

(** A GSV sentence whose slots are empty still yields a point, and an
    empty GSA sentence yields none. *)
Lemma derived_builders_emit_iff_data_witness :
  (∃ point,
     @create_satellite_point (table_env []) gsv_summary_only 7 = Ok (Some point)
     ∧ has_data_field point
     ∧ fields point !! "satellites_in_view" = Some (PyInt 11)
     ∧ fields point !! "satellites_processed" = None)
  ∧ @create_dop_point (table_env []) gsa_empty 7 = Ok None.
Proof.
  destruct (derived_builders_emit_iff_data (H := table_env [])
              gsv_summary_only 7) as (Hsat & _ & _).
  destruct (derived_builders_emit_iff_data (H := table_env [])
              gsa_empty 7) as (_ & Hdop & _).
  split.
  - destruct (@build_satellite_point (table_env []) gsv_summary_only 7)
      as [[point fa]|e] eqn:Hbuild; [|by vm_compute in Hbuild].
    destruct (Hsat _ _ eq_refl) as [[Hdata Hcreate]|[_ Hcreate]];
      [|by vm_compute in Hcreate].
    exists point. repeat split; [done..| |];
      vm_compute in Hbuild; injection Hbuild as <- _; by vm_compute.
  - destruct (@build_dop_point (table_env []) gsa_empty 7)
      as [[point fa]|e] eqn:Hbuild; [|by vm_compute in Hbuild].
    destruct (Hdop _ _ eq_refl) as [[Hdata Hcreate]|[_ Hcreate]]; [|done].
    by vm_compute in Hcreate.
Defined.

(** ** Time and name of the points built *)

Section Stamps.
Context `{Env}.

Lemma stamped_field name timestamp k v point :
  stamped name timestamp point → stamped name timestamp (field k v point).
Proof. by intros [? ?]. Qed.

Lemma stamped_start name timestamp :
  stamped name timestamp (set_time timestamp (new_point name)).
Proof. done. Qed.

Lemma add_mapped_fields_stamped name timestamp msg mappings point fa point' fa' :
  add_mapped_fields msg mappings point fa = Ok (point', fa') →
  stamped name timestamp point → stamped name timestamp point'.
Proof.
  intros Hrun [Hname Htime].
  destruct (add_mapped_fields_measurement _ _ _ _ _ _ Hrun) as [Hm Ht].
  split; congruence.
Qed.

Lemma add_text_field_stamped name timestamp msg attr field_name st :
  stamped name timestamp st.1 →
  stamped name timestamp (add_text_field msg attr field_name st).1.
Proof.
  intros Hst. unfold add_text_field.
  destruct (hasattr msg attr && truthy (getattr msg attr)); [|done].
  by apply stamped_field.
Qed.

Lemma satellite_slot_stamped name timestamp msg i st st' :
  satellite_slot msg i st = Ok st' →
  stamped name timestamp st.1.1 → stamped name timestamp st'.1.1.
Proof.
  destruct st as [[point processed] fa]. unfold satellite_slot.
  set (sv_prn := getattr msg _).
  destruct (truthy sv_prn && ne_empty sv_prn); [|by intros [= <-]].
  step_result.
  destruct (safe_int sv_prn) as [[n|]|e]; [| |done]; [|by intros [= <-]].
  destruct (n =? 0); [by intros [= <-]|].
  match goal with
  | |- context [add_mapped_fields msg ?t ?p false] =>
      destruct (add_mapped_fields msg t p false) as [[p1 a1]|e] eqn:Hmapped
  end; [|done].
  intros [= <-] Hst. cbn [fst snd] in *.
  eapply add_mapped_fields_stamped; [done|]. by apply stamped_field.
Qed.

Lemma active_satellite_slot_stamped name timestamp msg i st st' :
  active_satellite_slot msg i st = Ok st' →
  stamped name timestamp st.1.1 → stamped name timestamp st'.1.1.
Proof.
  destruct st as [[point active] fa]. unfold active_satellite_slot.
  set (sv_id := getattr msg _).
  destruct (truthy sv_id && ne_empty sv_id); [|by intros [= <-]].
  step_result.
  destruct (safe_int sv_id) as [[n|]|e]; [| |done]; [|by intros [= <-]].
  destruct (n =? 0); [by intros [= <-]|].
  intros [= <-] Hst. by apply stamped_field.
Qed.

Lemma build_satellite_point_stamped msg timestamp point fa :
  build_satellite_point msg timestamp = Ok (point, fa) →
  stamped "satellite_data" timestamp point.
Proof.
  unfold build_satellite_point. step_M. unfold result_bind.
  destruct (add_mapped_fields msg satellite_basic_fields _ false)
    as [[p1 fa1]|e] eqn:Hbasic; [|done].
  destruct (for_range (seq 1 4) (satellite_slot msg) (p1, 0, fa1))
    as [[[p2 processed] fa2]|e] eqn:Hslots; [|done].
  intros [= <- <-].
  pose proof (for_range_invariant
    (λ st, stamped "satellite_data" timestamp st.1.1)
    _ _ _ _ (satellite_slot_stamped _ _ msg) Hslots) as Hinv.
  cbn [fst snd] in Hinv.
  apply stamped_field. destruct (0 <? processed); [apply stamped_field|];
    apply Hinv; by eapply add_mapped_fields_stamped.
Qed.

Lemma build_dop_point_stamped msg timestamp point fa :
  build_dop_point msg timestamp = Ok (point, fa) →
  stamped "gps_dop_data" timestamp point.
Proof.
  unfold build_dop_point.
  pose proof (add_text_field_stamped _ _ msg "mode" "mode"
                (set_time timestamp (new_point "gps_dop_data"), false)
                (stamped_start _ _)) as Hst0.
  destruct (add_text_field msg "mode" "mode" _) as [p0 fa0].
  cbn [fst] in Hst0. step_M. unfold result_bind.
  match goal with
  | |- match ?fix_step with Ok _ => _ | Raise _ => _ end = _ → _ =>
      destruct fix_step as [[p1 fa1]|e] eqn:Hfix
  end; [|done].
  assert (Hst1 : stamped "gps_dop_data" timestamp p1).
  { destruct (hasattr msg "mode_fix_type"
              && truthy (getattr msg "mode_fix_type"));
      [|by injection Hfix as <- <-].
    destruct (safe_int (getattr msg "mode_fix_type")) as [[n|]|e];
      [| |done]; [|by injection Hfix as <- <-].
    destruct (n =? 0); injection Hfix as <- <-; [done|].
    by apply stamped_field. }
  destruct (for_range (seq 1 12) (active_satellite_slot msg) (p1, [], fa1))
    as [[[p2 active] fa2]|e] eqn:Hslots; [|done].
  pose proof (for_range_invariant
    (λ st, stamped "gps_dop_data" timestamp st.1.1)
    _ _ _ _ (active_satellite_slot_stamped _ _ msg) Hslots Hst1) as Hst2.
  cbn [fst snd] in Hst2.
  match goal with
  | |- (let '(_, _) := ?st in _) = _ → _ =>
      assert (Hst3 : stamped "gps_dop_data" timestamp st.1);
      [|destruct st as [p3 fa3]]
  end.
  { destruct active; [done|]. by do 2 apply stamped_field. }
  cbn [fst] in Hst3.
  destruct (add_mapped_fields msg dop_fields p3 fa3)
    as [[p4 fa4]|e] eqn:Hdop; [|done].
  pose proof (add_text_field_stamped "gps_dop_data" timestamp msg
                "system_id" "system_id" (p4, fa4)) as Hst5.
  destruct (add_text_field msg "system_id" "system_id" _) as [p5 fa5].
  intros [= <- <-]. apply stamped_field, Hst5.
  by eapply add_mapped_fields_stamped.
Qed.

Lemma build_navigation_point_stamped msg timestamp point fa :
  build_navigation_point msg timestamp = Ok (point, fa) →
  stamped "gps_navigation_data" timestamp point.
Proof.
  unfold build_navigation_point. step_M. unfold result_bind.
  destruct (add_mapped_fields msg nav_fields _ false)
    as [[p1 fa1]|e] eqn:Hnav; [|done].
  pose proof (add_text_field_stamped "gps_navigation_data" timestamp msg
                "faa_mode" "faa_mode" (p1, fa1)) as Hst2.
  destruct (add_text_field msg "faa_mode" "faa_mode" _) as [p2 fa2].
  intros [= <- <-]. apply stamped_field, Hst2.
  by eapply add_mapped_fields_stamped.
Qed.

Lemma create_of_build_stamped name timestamp build point :
  (∀ p fa, build = Ok (p, fa) → stamped name timestamp p) →
  ('(p, fa) ← build; Ok (if fa : bool then Some p else None)) = Ok (Some point) →
  stamped name timestamp point.
Proof.
  intros Hbuild. destruct build as [[p fa]|e]; [|done].
  simpl. destruct fa; [|done]. intros [= <-]. by eapply Hbuild.
Qed.

End Stamps.

(** ** One sentence *)

Section SentenceFacts.
Context `{Env}.

(** The position builder either leaves the process state alone and returns
    no point, or returns a stamped [gps_position] point after recording the
    position. *)
Lemma create_position_point_cases msg timestamp sentence_type w r w' :
  create_position_point msg timestamp sentence_type w = (r, w') →
  (w' = w ∧ ∀ point, r ≠ Ok (Some point))
  ∨ ∃ point lat lon,
      r = Ok (Some point)
      ∧ stamped "gps_position" timestamp point
      ∧ w' = (log (DebugPositionPoint sentence_type lat lon)
                (update_stats (set_last_position lat lon timestamp) w).2).2.
Proof.
  unfold create_position_point.
  destruct (hasattr msg "latitude" && hasattr msg "longitude"
            && truthy (getattr msg "latitude")
            && truthy (getattr msg "longitude"));
    cbv beta iota delta [negb]; [|intros [= <- <-]; by left].
  step_M.
  destruct (safe_float (getattr msg "latitude")) as [[lat|]|e1];
    [| |intros [= <- <-]; by left].
  2:{ destruct (safe_float (getattr msg "longitude")) as [[lon|]|e2];
        intros [= <- <-]; by left. }
  destruct (safe_float (getattr msg "longitude")) as [[lon|]|e2];
    [| |intros [= <- <-]; by left]; [|intros [= <- <-]; by left].
  destruct (add_mapped_fields msg position_field_mappings _ false)
    as [[p1 a1]|e3] eqn:Hmapped; [|intros [= <- <-]; by left].
  destruct (add_speed_conversions msg p1) as [p2|e4] eqn:Hspeed;
    [|intros [= <- <-]; by left].
  intros [= <- <-]. right. eexists _, lat, lon. split; [done|].
  split; [|done]. apply stamped_field.
  destruct (add_speed_conversions_lookup msg p1 p2 "latitude" Hspeed)
    as (_ & Hm2 & Ht2); [done..|].
  destruct (add_mapped_fields_measurement _ _ _ _ _ _ Hmapped) as [Hm1 Ht1].
  split; [by rewrite Hm2, Hm1|by rewrite Ht2, Ht1].
Qed.

Lemma run_parser_cases p msg timestamp sentence_type w r w' :
  run_parser p msg timestamp sentence_type w = (r, w') →
  (w' = w
   ∧ ∀ point, r = Ok (Some point) →
       time point = Some timestamp ∧ measurement point ≠ "gps_position")
  ∨ ∃ point lat lon,
      r = Ok (Some point)
      ∧ stamped "gps_position" timestamp point
      ∧ w' = (log (DebugPositionPoint sentence_type lat lon)
                (update_stats (set_last_position lat lon timestamp) w).2).2.
Proof.
  destruct p; simpl.
  - intros Hrun. apply create_position_point_cases in Hrun as [[-> Hno]|Hyes].
    + left. split; [done|]. intros point ->. by destruct (Hno point).
    + by right.
  - unfold lift. intros [= <- <-]. left. split; [done|]. intros point Hr.
    apply (create_of_build_stamped "satellite_data" timestamp) in Hr
      as [Hname Htime]; [|apply build_satellite_point_stamped].
    split; [done|]. by rewrite Hname.
  - unfold lift. intros [= <- <-]. left. split; [done|]. intros point Hr.
    apply (create_of_build_stamped "gps_dop_data" timestamp) in Hr
      as [Hname Htime]; [|apply build_dop_point_stamped].
    split; [done|]. by rewrite Hname.
  - unfold lift. intros [= <- <-]. left. split; [done|]. intros point Hr.
    apply (create_of_build_stamped "gps_navigation_data" timestamp) in Hr
      as [Hname Htime]; [|apply build_navigation_point_stamped].
    split; [done|]. by rewrite Hname.
Qed.

(** The three ways through [parse_nmea_sentence]. *)
Lemma parse_nmea_sentence_decode_error sentence w e :
  pynmea2_parse sentence = Raise e →
  parse_nmea_sentence sentence w
  = (Ok None,
     (log (WarningNmeaParseError (prefix6 sentence) e) (decode sentence w).2).2).
Proof.
  intros Hdecode. unfold parse_nmea_sentence. step_M.
  unfold decode at 1. by rewrite Hdecode.
Qed.

Lemma parse_nmea_sentence_no_parser sentence w msg :
  pynmea2_parse sentence = Ok msg →
  find_parser (prefix6 sentence) parsers = None →
  parse_nmea_sentence sentence w
  = (Ok None,
     (log (DebugNoParserAvailable (prefix6 sentence))
        (utcnow (decode sentence w).2).2).2).
Proof.
  intros Hdecode Hfind. unfold parse_nmea_sentence. step_M.
  unfold decode at 1. rewrite Hdecode. cbv beta iota.
  unfold utcnow at 1. cbv beta iota. by rewrite Hfind.
Qed.

Lemma parse_nmea_sentence_routed sentence w msg p :
  pynmea2_parse sentence = Ok msg →
  find_parser (prefix6 sentence) parsers = Some p →
  parse_nmea_sentence sentence w
  = match run_parser p msg (clock_reading (clock_reads w)) (prefix6 sentence)
            (utcnow (decode sentence w).2).2 with
    | (Ok (Some point), w2) =>
        (Ok (Some point),
         (log (DebugParsed (prefix6 sentence))
            (update_stats (add_sentences_parsed 1) w2).2).2)
    | (Ok None, w2) => (Ok None, (log (DebugNoPoint (prefix6 sentence)) w2).2)
    | (Raise e, w2) =>
        (Ok None, (log (WarningParserError (prefix6 sentence) e) w2).2)
    end.
Proof.
  intros Hdecode Hfind. unfold parse_nmea_sentence. step_M.
  unfold decode at 1. rewrite Hdecode. cbv beta iota.
  unfold utcnow at 1. cbv beta iota. rewrite Hfind.
  change (clock_reads (decode sentence w).2) with (clock_reads w).
  by destruct (run_parser p msg _ _ _) as [[[point|]|e] w2].
Qed.

End SentenceFacts.

Section SentenceEffects.
Context `{Env}.

(** No exception leaves [parse_nmea_sentence], whatever the decoder and the
    builders do, and its effects on the process state are these. *)
Lemma parse_nmea_sentence_effects sentence w :
  ∃ r w', parse_nmea_sentence sentence w = (Ok r, w')
          ∧ sentence_effects sentence w r w'.
Proof.
  unfold sentence_effects, decodes.
  destruct (pynmea2_parse sentence) as [msg|e] eqn:Hdecode.
  2:{ rewrite (parse_nmea_sentence_decode_error _ _ _ Hdecode).
      eexists _, _. split; [done|]. simpl. rewrite Nat.add_0_r.
      split_and!; try done; try lia. by left. }
  destruct (find_parser (prefix6 sentence) parsers) as [p|] eqn:Hfind.
  2:{ rewrite (parse_nmea_sentence_no_parser _ _ _ Hdecode Hfind).
      eexists _, _. split; [done|]. simpl.
      split_and!; try done; try lia. by left. }
  rewrite (parse_nmea_sentence_routed _ _ _ _ Hdecode Hfind).
  destruct (run_parser p msg _ _ _) as [r w2] eqn:Hrun.
  apply run_parser_cases in Hrun
    as [[-> Hpoint]|(point & lat & lon & -> & [Hname Htime] & ->)].
  - destruct r as [[point|]|e]; eexists _, _; (split; [done|]); simpl;
      split_and!; try done; try lia; try (by left).
    intros ? [= <-]. split; [done|]. by apply Hpoint.
  - eexists _, _. split; [done|]. simpl.
    split_and!; try done; try lia.
    + by intros ? [= <-].
    + right. by eexists.
Qed.

Lemma parse_loop_processes sentences b w :
  ∃ b' w', parse_loop sentences b w = (Ok b', w')
           ∧ processes sentences b w b' w'.
Proof.
  revert b w. induction sentences as [|s rest IH]; intros b w.
  - eexists _, _. split; [done|]. constructor.
  - cbn [parse_loop]. cbv zeta.
    destruct (is_invalid (strip s)) eqn:Hinvalid.
    { destruct (IH (skip "invalid" b) w) as (b' & w' & Hrun & Hproc).
      eexists _, _. split; [done|]. by apply processes_invalid. }
    destruct (has_embedded_newline (strip s)) eqn:Hembedded.
    { destruct (IH (skip "embedded-newlines" b) w) as (b' & w' & Hrun & Hproc).
      eexists _, _. split; [done|]. by apply processes_embedded. }
    assert (Hroutable : routable s = true)
      by (unfold routable; by rewrite Hinvalid, Hembedded).
    destruct (parse_nmea_sentence_effects (strip s) w)
      as (r & w1 & Hsentence & Heffects).
    step_M. rewrite Hsentence. destruct r as [point|].
    + destruct (IH (keep point (prefix6 (strip s))
                      (tally (prefix6 (strip s)) b)) w1)
        as (b' & w' & Hrun & Hproc).
      eexists _, _. split; [done|]. by eapply processes_parsed.
    + destruct (IH (skip (prefix6 (strip s))
                      (tally (prefix6 (strip s)) b)) w1)
        as (b' & w' & Hrun & Hproc).
      eexists _, _. split; [done|]. by eapply processes_skipped.
Qed.

End SentenceEffects.

(** ** The batch loop *)

Section Counting.

Lemma tally_total_insert (counts : gmap string Z) (k : string) :
  tally_total (<[k := default 0 (counts !! k) + 1]> counts)
  = tally_total counts + 1.
Proof.
  unfold tally_total.
  destruct (counts !! k) as [n|] eqn:Hk; simpl.
  - rewrite <- (insert_delete_eq counts).
    rewrite map_fold_insert_L; [|intros; lia|apply lookup_delete_eq].
    rewrite (map_fold_delete_L _ _ k n counts); [lia|intros; lia|done].
  - rewrite map_fold_insert_L; [lia|intros; lia|done].
Qed.

Lemma tally_total_empty : tally_total ∅ = 0.
Proof. unfold tally_total. by rewrite map_fold_empty. Qed.

Lemma count_label_snoc label skipped x :
  count_label label (skipped ++ [x])
  = (count_label label skipped + if String.eqb label x then 1 else 0)%nat.
Proof.
  unfold count_label. rewrite List.filter_app, length_app. simpl.
  by destruct (String.eqb label x).
Qed.

Lemma typed_skips_snoc skipped x :
  length (typed_skips (skipped ++ [x]))
  = (length (typed_skips skipped)
     + if negb (String.eqb x "invalid")
          && negb (String.eqb x "embedded-newlines") then 1 else 0)%nat.
Proof.
  unfold typed_skips. rewrite List.filter_app, length_app. simpl.
  by destruct (negb (String.eqb x "invalid")
               && negb (String.eqb x "embedded-newlines")).
Qed.

(** The type key of a sentence that passed the ["$"] test begins with
    ["$"], so it is never one of the two synthetic labels. *)
Lemma type_key_of_valid t :
  is_invalid t = false →
  String.eqb (prefix6 t) "invalid" = false
  ∧ String.eqb (prefix6 t) "embedded-newlines" = false
  ∧ String.eqb "invalid" (prefix6 t) = false
  ∧ String.eqb "embedded-newlines" (prefix6 t) = false.
Proof.
  unfold is_invalid. destruct t as [|c t]; [done|]. simpl.
  destruct (Ascii.eqb_spec c "$") as [->|]; [|done]. intros _.
  by repeat split.
Qed.

Lemma routable_valid s :
  routable s = true →
  is_invalid (strip s) = false ∧ has_embedded_newline (strip s) = false.
Proof.
  unfold routable. intros [H1 H2]%andb_prop.
  by destruct (is_invalid (strip s)), (has_embedded_newline (strip s)).
Qed.

End Counting.

Section BatchFacts.
Context `{Env}.

(** The counts of the accumulated batch after a run of the loop. *)
Lemma processes_counts sentences b w b' w' :
  processes sentences b w b' w' →
  length (points_to_write b') = (length (points_to_write b)
    + (length (parsed_sentences b') - length (parsed_sentences b)))%nat
  ∧ (length (parsed_sentences b') + length (skipped_sentences b')
     = length (parsed_sentences b) + length (skipped_sentences b)
       + length sentences)%nat
  ∧ count_label "invalid" (skipped_sentences b')
    = (count_label "invalid" (skipped_sentences b)
       + length (List.filter (fun s => is_invalid (strip s)) sentences))%nat
  ∧ count_label "embedded-newlines" (skipped_sentences b')
    = (count_label "embedded-newlines" (skipped_sentences b)
       + length (List.filter
                   (fun s => negb (is_invalid (strip s))
                             && has_embedded_newline (strip s)) sentences))%nat
  ∧ (length (parsed_sentences b') + length (typed_skips (skipped_sentences b'))
     = length (parsed_sentences b) + length (typed_skips (skipped_sentences b))
       + length (List.filter routable sentences))%nat
  ∧ tally_total (sentence_type_counts b')
    = tally_total (sentence_type_counts b)
      + Z.of_nat (length (List.filter routable sentences))
  ∧ (length (parsed_sentences b) ≤ length (parsed_sentences b'))%nat.
Proof.
  induction 1 as [b w
                 |s rest b w b' w' Hinvalid _ IH
                 |s rest b w b' w' Hinvalid Hembedded _ IH
                 |s rest b w point w1 b' w' Hroutable _ _ _ IH
                 |s rest b w w1 b' w' Hroutable _ _ _ IH].
  - simpl. split_and!; lia.
  - destruct IH as (IH1 & IH2 & IH3 & IH4 & IH5 & IH6 & IH7).
    cbn [skip points_to_write parsed_sentences skipped_sentences
         sentence_type_counts] in *.
    rewrite count_label_snoc in IH3, IH4. rewrite typed_skips_snoc in IH5.
    rewrite length_app in IH2.
    simpl in IH2, IH3, IH4, IH5.
    assert (Hroutable : routable s = false)
      by (unfold routable; by rewrite Hinvalid).
    cbn [List.filter length]. rewrite Hinvalid, Hroutable.
    cbn [negb andb length].
    split_and!; lia.
  - destruct IH as (IH1 & IH2 & IH3 & IH4 & IH5 & IH6 & IH7).
    cbn [skip points_to_write parsed_sentences skipped_sentences
         sentence_type_counts] in *.
    rewrite count_label_snoc in IH3, IH4. rewrite typed_skips_snoc in IH5.
    rewrite length_app in IH2.
    simpl in IH2, IH3, IH4, IH5.
    assert (Hroutable : routable s = false)
      by (unfold routable; by rewrite Hinvalid, Hembedded).
    cbn [List.filter length]. rewrite Hinvalid, Hembedded, Hroutable.
    cbn [negb andb length].
    split_and!; lia.
  - destruct IH as (IH1 & IH2 & IH3 & IH4 & IH5 & IH6 & IH7).
    destruct (routable_valid _ Hroutable) as [Hinvalid Hembedded].
    cbn [keep tally points_to_write parsed_sentences skipped_sentences
         sentence_type_counts] in *.
    rewrite tally_total_insert in IH6. rewrite !length_app in *.
    cbn [List.filter length]. rewrite Hroutable, Hinvalid, Hembedded.
    cbn [negb andb length] in *.
    split_and!; lia.
  - destruct IH as (IH1 & IH2 & IH3 & IH4 & IH5 & IH6 & IH7).
    destruct (routable_valid _ Hroutable) as [Hinvalid Hembedded].
    destruct (type_key_of_valid _ Hinvalid) as (Hk1 & Hk2 & Hk3 & Hk4).
    cbn [skip tally points_to_write parsed_sentences skipped_sentences
         sentence_type_counts] in *.
    rewrite tally_total_insert in IH6.
    rewrite count_label_snoc in IH3, IH4. rewrite typed_skips_snoc in IH5.
    rewrite length_app in IH2. rewrite Hk1, Hk2 in IH5.
    rewrite Hk3 in IH3. rewrite Hk4 in IH4.
    cbn [List.filter length]. rewrite Hroutable, Hinvalid, Hembedded.
    cbn [negb andb length] in *.
    split_and!; lia.
Qed.

(** The counts of a whole batch, for any list of sentences whatever, be
    it the tokenizer's output or not: one entry per sentence, and the type
    keys counted against the sentences that reach the router. *)
Lemma batch_outcomes_partition_sentences (sentences : list string) (w : World) :
  ∃ b w',
    parse_nmea_sentences sentences w = (Ok b, w')
    ∧ length (points_to_write b) = length (parsed_sentences b)
    ∧ (length (parsed_sentences b) + length (skipped_sentences b)
       = length sentences)%nat
    ∧ count_label "invalid" (skipped_sentences b)
      = length (List.filter (fun s => is_invalid (strip s)) sentences)
    ∧ count_label "embedded-newlines" (skipped_sentences b)
      = length (List.filter
                  (fun s => negb (is_invalid (strip s))
                            && has_embedded_newline (strip s)) sentences)
    ∧ (length (parsed_sentences b) + length (typed_skips (skipped_sentences b))
       = length (List.filter routable sentences))%nat
    ∧ tally_total (sentence_type_counts b)
      = Z.of_nat (length (List.filter routable sentences)).
Proof.
  destruct (parse_loop_processes sentences empty_batch w)
    as (b & w' & Hrun & Hproc).
  exists b, w'. split; [done|].
  destruct (processes_counts _ _ _ _ _ Hproc)
    as (H1 & H2 & H3 & H4 & H5 & H6 & H7).
  simpl in *. rewrite tally_total_empty in H6.
  split_and!; lia.
Qed.

End BatchFacts.

(** The embedded-newline guard of the loop is live code: handed a
    ["$"]-led sentence with a line feed inside, which the tokenizer never
    produces, the loop files it under ["embedded-newlines"] and counts no
    type key. *)
Lemma embedded_newline_breaks_count :
  ∃ b w',
    @parse_nmea_sentences (table_env []) [broken_sentence] initial_world
    = (Ok b, w')
    ∧ length (List.filter (fun s => startswith_dollar (strip s))
                [broken_sentence]) = 1%nat
    ∧ (length (parsed_sentences b) + length (typed_skips (skipped_sentences b))
       = 0)%nat
    ∧ skipped_sentences b = ["embedded-newlines"]
    ∧ tally_total (sentence_type_counts b) = 0.
Proof. eexists _, _. split; [by vm_compute|]. by vm_compute. Qed.

Section BatchRecovery.
Context `{Env}.

Lemma parse_loop_app before after b w :
  parse_loop (before ++ after) b w
  = match parse_loop before b w with
    | (Ok b1, w1) => parse_loop after b1 w1
    | (Raise e, w1) => (Raise e, w1)
    end.
Proof.
  revert b w. induction before as [|s rest IH]; intros b w; [done|].
  cbn [app parse_loop]. cbv zeta.
  destruct (is_invalid (strip s)); [apply IH|].
  destruct (has_embedded_newline (strip s)); [apply IH|].
  step_M. destruct (parse_nmea_sentence (strip s) w) as [[[point|]|e] w1];
    [apply IH..|done].
Qed.

(** C9: no exception leaves the per-sentence step, whether the decoder
    fails or a builder raises; the failed sentence is entered in the skip
    list under its type key and the loop goes on with the sentences after
    it; the batch as a whole always returns, with one entry per sentence. *)
Theorem sentence_failures_never_abort_batch :
  (∀ sentence w, ∃ r w', parse_nmea_sentence sentence w = (Ok r, w'))
  ∧ (∀ sentence w e,
       pynmea2_parse sentence = Raise e →
       ∃ w', parse_nmea_sentence sentence w = (Ok None, w'))
  ∧ (∀ sentence w msg p e w2,
       pynmea2_parse sentence = Ok msg →
       find_parser (prefix6 sentence) parsers = Some p →
       run_parser p msg (clock_reading (clock_reads w)) (prefix6 sentence)
         (utcnow (decode sentence w).2).2 = (Raise e, w2) →
       ∃ w', parse_nmea_sentence sentence w = (Ok None, w'))
  ∧ (∀ before sentence after b w b1 w1 w2,
       routable sentence = true →
       parse_loop before b w = (Ok b1, w1) →
       parse_nmea_sentence (strip sentence) w1 = (Ok None, w2) →
       parse_loop (before ++ sentence :: after) b w
       = parse_loop after
           (skip (prefix6 (strip sentence))
              (tally (prefix6 (strip sentence)) b1)) w2)
  ∧ (∀ sentences w,
       ∃ b w', parse_nmea_sentences sentences w = (Ok b, w')
               ∧ (length (parsed_sentences b) + length (skipped_sentences b)
                  = length sentences)%nat).
Proof.
  split_and!.
  - intros sentence w.
    destruct (parse_nmea_sentence_effects sentence w) as (r & w' & Hrun & _).
    by exists r, w'.
  - intros sentence w e Hdecode.
    rewrite (parse_nmea_sentence_decode_error _ _ _ Hdecode). by eexists.
  - intros sentence w msg p e w2 Hdecode Hfind Hraise.
    rewrite (parse_nmea_sentence_routed _ _ _ _ Hdecode Hfind), Hraise.
    by eexists.
  - intros before sentence after b w b1 w1 w2 Hroutable Hbefore Hsentence.
    rewrite parse_loop_app, Hbefore.
    destruct (routable_valid _ Hroutable) as [Hinvalid Hembedded].
    cbn [parse_loop]. cbv zeta. rewrite Hinvalid, Hembedded.
    step_M. by rewrite Hsentence.
  - intros sentences w.
    destruct (parse_loop_processes sentences empty_batch w)
      as (b & w' & Hrun & Hproc).
    exists b, w'. split; [done|].
    destruct (processes_counts _ _ _ _ _ Hproc) as (_ & Hlen & _).
    simpl in Hlen. lia.
Qed.

(** ** Frame of the position statistics *)

Lemma processes_points_mono sentences b w b' w' point :
  processes sentences b w b' w' →
  point ∈ points_to_write b → point ∈ points_to_write b'.
Proof.
  induction 1; intros Hin; auto.
  apply IHprocesses. simpl. apply elem_of_app. by left.
Qed.

Lemma processes_last_position sentences b w b' w' :
  processes sentences b w b' w' →
  (∀ point, point ∈ points_to_write b' → measurement point ≠ "gps_position") →
  last_position (stats w') = last_position (stats w)
  ∧ last_update (stats w') = last_update (stats w).
Proof.
  induction 1 as [b w
                 |s rest b w b' w' _ _ IH
                 |s rest b w b' w' _ _ _ IH
                 |s rest b w point w1 b' w' _ _ Heffects Hrest IH
                 |s rest b w w1 b' w' _ _ Heffects _ IH]; intros Hnone; auto.
  - destruct (IH Hnone) as [-> ->].
    destruct Heffects as (_ & _ & _ & _ & _ & _ & [Hsame|Hposition]);
      [done|].
    destruct Hposition as (point' & [= <-] & Hname).
    destruct (Hnone point); [|done].
    eapply processes_points_mono; [done|].
    simpl. apply elem_of_app. right. by apply list_elem_of_singleton.
  - destruct (IH Hnone) as [-> ->].
    destruct Heffects as (_ & _ & _ & _ & _ & _ & [Hsame|Hposition]);
      [done|].
    by destruct Hposition as (point' & [=] & _).
Qed.

(** C10: a batch that yields no [gps_position] point leaves
    [last_position] and [last_update] as they were. *)
Theorem only_position_points_move_last_position
    (sentences : list string) (w : World) (b : Batch) (w' : World) :
  parse_nmea_sentences sentences w = (Ok b, w') →
  (∀ point, point ∈ points_to_write b → measurement point ≠ "gps_position") →
  last_position (stats w') = last_position (stats w)
  ∧ last_update (stats w') = last_update (stats w).
Proof.
  intros Hrun Hnone.
  destruct (parse_loop_processes sentences empty_batch w)
    as (b0 & w0 & Hrun0 & Hproc).
  unfold parse_nmea_sentences in Hrun. rewrite Hrun in Hrun0.
  injection Hrun0 as <- <-. by eapply processes_last_position.
Qed.

End BatchRecovery.

(** An undecodable GGA sentence and a GSV sentence whose builder raises
    are both skipped under their type keys, and the RMC fix after them is
    still parsed. *)
Lemma sentence_failures_never_abort_batch_witness :
  ∃ b w',
    @parse_nmea_sentences sample_env
      ["$GPGGA,garbled"; "$GPGSV,overflow"; "$GPRMC,fix"] initial_world
    = (Ok b, w')
    ∧ parsed_sentences b = ["$GPRMC"]
    ∧ skipped_sentences b = ["$GPGGA"; "$GPGSV"]
    ∧ logged w'
      = [ WarningNmeaParseError "$GPGGA" ParseError;
          WarningParserError "$GPGSV" OverflowError;
          DebugPositionPoint "$GPRMC" 51.5 (-0.12);
          DebugParsed "$GPRMC" ].
Proof.
  destruct (@sentence_failures_never_abort_batch sample_env)
    as (_ & _ & _ & _ & Htotal).
  destruct (Htotal ["$GPGGA,garbled"; "$GPGSV,overflow"; "$GPRMC,fix"]
              initial_world) as (b & w' & Hrun & _).
  exists b, w'. split; [done|].
  vm_compute in Hrun. injection Hrun as <- <-. by vm_compute.
Defined.

(** A batch of a GSV summary and a ZDA sentence builds one point, none of
    them a position: the counter of parsed sentences moves, the last
    position does not. *)
Lemma only_position_points_move_last_position_witness :
  ∃ b w',
    @parse_nmea_sentences sample_env
      ["$GPGSV,3,1,11"; "$GPZDA,201530.00,04,07,2002"] initial_world
    = (Ok b, w')
    ∧ length (points_to_write b) = 1%nat
    ∧ sentences_parsed (stats w') = 1
    ∧ last_position (stats w') = None
    ∧ last_update (stats w') = None.
Proof.
  destruct (@parse_nmea_sentences sample_env
              ["$GPGSV,3,1,11"; "$GPZDA,201530.00,04,07,2002"] initial_world)
    as [r w'] eqn:Hrun.
  assert (Hvalue := Hrun). vm_compute in Hvalue.
  destruct r as [b|e]; [|discriminate Hvalue].
  exists b, w'. split; [done|].
  destruct (@only_position_points_move_last_position sample_env _ _ _ _ Hrun)
    as [Hposition Hupdate].
  - injection Hvalue as <- _. intros point Hin.
    apply list_elem_of_singleton in Hin as ->. by vm_compute.
  - rewrite Hposition, Hupdate. injection Hvalue as <- <-. by vm_compute.
Defined.

(** ** The clock *)

Section ClockFacts.
Context `{Env}.



End ClockFacts.


(** ** Sentences without a builder *)

Section Unroutable.
Context `{Env}.

Lemma find_parser_unregistered key :
  key ∉ registered_keys → find_parser key parsers = None.
Proof.
  intros Hnot. unfold registered_keys in Hnot. simpl.
  repeat match goal with
  | |- context [String.eqb key ?k] =>
      destruct (String.eqb_spec key k) as [->|_];
        [exfalso; apply Hnot; set_solver|]
  end.
  done.
Qed.

(** C4, as amended: a sentence whose type key has no registered builder
    is handed to the decoder first; it yields no point, touches no
    statistic, and is entered in the skip list under its type key; "no
    parser available" is logged when the decoder accepts the sentence, and
    the decoder's error when it does not. *)
Theorem unroutable_sentence_is_decoded_then_skipped
    (sentence : string) (w : World) :
  prefix6 sentence ∉ registered_keys →
  ∃ w',
    parse_nmea_sentence sentence w = (Ok None, w')
    ∧ decoder_calls w' = decoder_calls w ++ [sentence]
    ∧ stats w' = stats w
    ∧ logged w'
      = logged w
        ++ [match pynmea2_parse sentence with
            | Ok _ => DebugNoParserAvailable (prefix6 sentence)
            | Raise e => WarningNmeaParseError (prefix6 sentence) e
            end]
    ∧ ∀ line rest b,
        strip line = sentence → routable line = true →
        parse_loop (line :: rest) b w
        = parse_loop rest
            (skip (prefix6 sentence) (tally (prefix6 sentence) b)) w'.
Proof.
  intros Hkey. apply find_parser_unregistered in Hkey.
  assert (∃ w', parse_nmea_sentence sentence w = (Ok None, w')
                ∧ decoder_calls w' = decoder_calls w ++ [sentence]
                ∧ stats w' = stats w
                ∧ logged w'
                  = logged w
                    ++ [match pynmea2_parse sentence with
                        | Ok _ => DebugNoParserAvailable (prefix6 sentence)
                        | Raise e => WarningNmeaParseError (prefix6 sentence) e
                        end]) as (w' & Hrun & Hcalls & Hstats & Hlog).
  { destruct (pynmea2_parse sentence) as [msg|e] eqn:Hdecode.
    - rewrite (parse_nmea_sentence_no_parser _ _ _ Hdecode Hkey).
      by eexists.
    - rewrite (parse_nmea_sentence_decode_error _ _ _ Hdecode).
      by eexists. }
  exists w'. split_and!; [done..|].
  intros line rest b Hline Hroutable.
  destruct (routable_valid _ Hroutable) as [Hinvalid Hembedded].
  cbn [parse_loop]. cbv zeta. rewrite Hinvalid, Hembedded, Hline.
  step_M. by rewrite Hrun.
Qed.

(** ** The tokenizer *)

(** C5, as amended: the bodies [""] and ["\n\n"] hold no sentence (the
    handler rejects them before it splits anything), while
    ["notanmeastring"] is tokenized into one sentence, which the batch loop
    then classifies as invalid: no point, no type count. *)
Theorem tokenizer_keeps_lines_without_dollar (w : World) :
  tokenize "" = []
  ∧ tokenize two_line_feeds = []
  ∧ receive_gps_data "" w = (Raise (HTTPException 500), w)
  ∧ receive_gps_data two_line_feeds w = (Raise (HTTPException 500), w)
  ∧ tokenize "notanmeastring" = ["notanmeastring"]
  ∧ is_invalid "notanmeastring" = true
  ∧ parse_nmea_sentences ["notanmeastring"] w
    = (Ok (skip "invalid" empty_batch), w).
Proof. split_and!; by vm_compute. Qed.

End Unroutable.

(** The ZDA sentence of the sample table is decoded, then skipped. *)
Lemma unroutable_sentence_is_decoded_then_skipped_witness :
  ∃ w',
    @parse_nmea_sentence sample_env "$GPZDA,201530.00,04,07,2002" initial_world
    = (Ok None, w')
    ∧ decoder_calls w' = ["$GPZDA,201530.00,04,07,2002"]
    ∧ logged w' = [DebugNoParserAvailable "$GPZDA"].
Proof.
  destruct (@unroutable_sentence_is_decoded_then_skipped sample_env
              "$GPZDA,201530.00,04,07,2002" initial_world)
    as (w' & Hrun & Hcalls & _ & Hlog & _).
  { vm_compute. not_in_list. }
  exists w'. split_and!; done.
Defined.

(** C4 fails as stated: the decoder is called on a sentence whose type key
    has no builder. *)
Lemma decoder_runs_on_unroutable_sentence :
  (prefix6 "$GPZDA,201530.00,04,07,2002" ∉ registered_keys)
  ∧ find_parser (prefix6 "$GPZDA,201530.00,04,07,2002") parsers = None
  ∧ decoder_calls initial_world = []
  ∧ decoder_calls
      (@parse_nmea_sentence sample_env "$GPZDA,201530.00,04,07,2002"
         initial_world).2
    = ["$GPZDA,201530.00,04,07,2002"].
Proof. split_and!; [vm_compute; not_in_list|by vm_compute..]. Qed.

(** C5 fails as stated: tokenizing ["notanmeastring"] yields one sentence,
    which the handler counts as received. *)
Lemma tokenizer_yields_line_without_dollar :
  tokenize "notanmeastring" ≠ []
  ∧ length (tokenize "notanmeastring") = 1%nat
  ∧ ∃ batch w',
      @receive_gps_data sample_env "notanmeastring" initial_world
      = (Ok (["notanmeastring"], batch), w')
      ∧ sentences_received (stats w') = 1.
Proof.
  split_and!; [by vm_compute..|].
  destruct (@receive_gps_data sample_env "notanmeastring" initial_world)
    as [r w'] eqn:Hrun.
  vm_compute in Hrun. injection Hrun as <- <-.
  eexists _, _. split; [reflexivity|]. by vm_compute.
Qed.

(** * Further properties of the pipeline *)

(** ** Fields are written only when valid *)

Section FieldWrites.
Context `{Env}.

Lemma add_field_if_valid_inv point field_name value conv point' added :
  add_field_if_valid point field_name value conv = Ok (point', added) →
  (added = true
   ∧ is_not_none value && ne_empty value = true
   ∧ ∃ c, match conv with Some f => f value | None => Ok (Some value) end
          = Ok (Some c)
          ∧ point' = field field_name c point)
  ∨ (added = false ∧ point' = point).
Proof.
  unfold add_field_if_valid.
  destruct (is_not_none value && ne_empty value); [|intros [= <- <-]; by right].
  step_result.
  destruct (match conv with Some c => c value | None => Ok (Some value) end)
    as [[v|]|e]; intros [= <- <-]; [left|right]; eauto.
Qed.

(** [add_field_if_valid] writes at most the named field: when it reports
    [True] the field holds the converted value, when it reports [False] the
    point is untouched, and no other field ever changes. *)
Theorem add_field_if_valid_writes_only_its_field
    point field_name value conv point' added :
  add_field_if_valid point field_name value conv = Ok (point', added) →
  (∀ k, k ≠ field_name → fields point' !! k = fields point !! k)
  ∧ measurement point' = measurement point
  ∧ time point' = time point
  ∧ match added with
    | true =>
        value ≠ PyNone ∧ value ≠ PyStr ""
        ∧ ∃ c, match conv with Some f => f value | None => Ok (Some value) end
               = Ok (Some c)
               ∧ fields point' !! field_name = Some c
    | false => point' = point
    end.
Proof.
  intros Hrun.
  apply add_field_if_valid_inv in Hrun
    as [(-> & Hvalid & c & Hconv & ->)|[-> ->]]; [|by split_and!].
  split; [|split; [done|split; [done|]]].
  - intros k Hk. simpl. by rewrite lookup_insert_ne.
  - split; [|split].
    + intros ->. discriminate Hvalid.
    + intros ->. discriminate Hvalid.
    + exists c. split; [done|]. simpl. by rewrite lookup_insert_eq.
Qed.

Lemma conv_safe_float_scalar value c :
  conv_safe_float value = Ok (Some c) → is_scalar c = true.
Proof.
  unfold conv_safe_float. step_result.
  destruct (safe_float value) as [[f|]|e]; [|done..]. by intros [= <-].
Qed.

Lemma conv_safe_int_scalar value c :
  conv_safe_int value = Ok (Some c) → is_scalar c = true.
Proof.
  unfold conv_safe_int. step_result.
  destruct (safe_int value) as [[z|]|e]; [|done..]. by intros [= <-].
Qed.

Lemma conv_str_scalar value c :
  conv_str value = Ok (Some c) → is_scalar c = true.
Proof. by intros [= <-]. Qed.

Lemma built_from_trans start middle point :
  built_from start middle → built_from middle point → built_from start point.
Proof. intros Hstart. induction 1; [done|]. by constructor. Qed.

Lemma add_mapped_fields_built msg mappings point fa point' fa' :
  Forall (λ m, ∀ v c, m.2 v = Ok (Some c) → is_scalar c = true) mappings →
  add_mapped_fields msg mappings point fa = Ok (point', fa') →
  built_from point point'.
Proof.
  intros Hconvs. revert point fa.
  induction Hconvs as [|[[attr name] conv] rest Hconv _ IH]; intros point fa.
  - intros [= <- <-]. constructor.
  - cbn [add_mapped_fields]. destruct (hasattr msg attr); [|apply IH].
    step_result.
    match goal with
    | |- match ?added with Ok _ => _ | Raise _ => _ end = _ → _ =>
        destruct added as [[p1 a1]|e] eqn:Hadd
    end; [|done].
    intros Hrest. apply IH in Hrest.
    eapply built_from_trans; [|done].
    apply add_field_if_valid_inv in Hadd
      as [(_ & _ & c & Hc & ->)|[_ ->]]; [|constructor].
    constructor; [|constructor]. by eapply Hconv.
Qed.

Lemma add_text_field_built msg attr name st :
  built_from st.1 (add_text_field msg attr name st).1.
Proof.
  unfold add_text_field.
  destruct (hasattr msg attr && truthy (getattr msg attr)); constructor;
    [done|constructor].
Qed.

Lemma satellite_slot_built msg i st st' :
  satellite_slot msg i st = Ok st' → built_from st.1.1 st'.1.1.
Proof.
  destruct st as [[point processed] fa]. unfold satellite_slot.
  set (sv_prn := getattr msg _).
  destruct (truthy sv_prn && ne_empty sv_prn); [|intros [= <-]; constructor].
  step_result.
  destruct (safe_int sv_prn) as [[n|]|e]; [| |done];
    [|intros [= <-]; constructor].
  destruct (n =? 0); [intros [= <-]; constructor|].
  match goal with
  | |- context [add_mapped_fields msg ?t ?p false] =>
      destruct (add_mapped_fields msg t p false) as [[p1 a1]|e] eqn:Hmapped
  end; [|done].
  intros [= <-]. cbn [fst snd].
  apply add_mapped_fields_built in Hmapped;
    [|repeat constructor; cbn [snd]; apply conv_safe_float_scalar].
  eapply built_from_trans; [|exact Hmapped].
  apply built_field; [done|apply built_start].
Qed.

Lemma active_satellite_slot_built msg i st st' :
  active_satellite_slot msg i st = Ok st' → built_from st.1.1 st'.1.1.
Proof.
  destruct st as [[point active] fa]. unfold active_satellite_slot.
  set (sv_id := getattr msg _).
  destruct (truthy sv_id && ne_empty sv_id); [|intros [= <-]; constructor].
  step_result.
  destruct (safe_int sv_id) as [[n|]|e]; [| |done];
    [|intros [= <-]; constructor].
  destruct (n =? 0); intros [= <-]; constructor; [done|constructor].
Qed.

Lemma for_range_built {S} (proj : S → Point) indices body (s s' : S) :
  (∀ i t t', body i t = Ok t' → built_from (proj t) (proj t')) →
  for_range indices body s = Ok s' → built_from (proj s) (proj s').
Proof.
  intros Hstep. revert s.
  induction indices as [|i rest IH]; intros s; cbn [for_range].
  - intros [= <-]. constructor.
  - step_result. destruct (body i s) as [t|e] eqn:Hbody; [|done].
    intros Hrest. eapply built_from_trans; [by eapply Hstep|by apply IH].
Qed.

Lemma build_satellite_point_built msg timestamp point fa :
  build_satellite_point msg timestamp = Ok (point, fa) →
  built_from (set_time timestamp (new_point "satellite_data")) point.
Proof.
  unfold build_satellite_point. step_M. unfold result_bind.
  destruct (add_mapped_fields msg satellite_basic_fields _ false)
    as [[p1 fa1]|e] eqn:Hbasic; [|done].
  destruct (for_range (seq 1 4) (satellite_slot msg) (p1, 0, fa1))
    as [[[p2 processed] fa2]|e] eqn:Hslots; [|done].
  intros [= <- <-].
  apply add_mapped_fields_built in Hbasic;
    [|repeat constructor; cbn [snd]; apply conv_safe_int_scalar].
  apply (for_range_built (λ st, st.1.1)) in Hslots;
    [|apply satellite_slot_built].
  cbn [fst] in Hslots.
  constructor; [done|]. eapply built_from_trans; [done|].
  eapply built_from_trans; [done|].
  destruct (0 <? processed); constructor; [done|constructor].
Qed.

Lemma build_dop_point_built msg timestamp point fa :
  build_dop_point msg timestamp = Ok (point, fa) →
  built_from (set_time timestamp (new_point "gps_dop_data")) point.
Proof.
  unfold build_dop_point.
  pose proof (add_text_field_built msg "mode" "mode"
                (set_time timestamp (new_point "gps_dop_data"), false)) as Hb0.
  destruct (add_text_field msg "mode" "mode" _) as [p0 fa0].
  cbn [fst] in Hb0. step_M. unfold result_bind.
  match goal with
  | |- match ?fix_step with Ok _ => _ | Raise _ => _ end = _ → _ =>
      destruct fix_step as [[p1 fa1]|e] eqn:Hfix
  end; [|done].
  assert (Hb1 : built_from p0 p1).
  { destruct (hasattr msg "mode_fix_type"
              && truthy (getattr msg "mode_fix_type"));
      [|injection Hfix as <- <-; constructor].
    destruct (safe_int (getattr msg "mode_fix_type")) as [[n|]|e];
      [| |done]; [|injection Hfix as <- <-; constructor].
    destruct (n =? 0); injection Hfix as <- <-; constructor;
      [done|constructor]. }
  destruct (for_range (seq 1 12) (active_satellite_slot msg) (p1, [], fa1))
    as [[[p2 active] fa2]|e] eqn:Hslots; [|done].
  apply (for_range_built (λ st, st.1.1)) in Hslots;
    [|apply active_satellite_slot_built].
  cbn [fst] in Hslots.
  match goal with
  | |- (let '(_, _) := ?st in _) = _ → _ =>
      assert (Hb3 : built_from p2 st.1); [|destruct st as [p3 fa3]]
  end.
  { destruct active; [constructor|].
    constructor; [done|]. constructor; [done|constructor]. }
  cbn [fst] in Hb3.
  destruct (add_mapped_fields msg dop_fields p3 fa3)
    as [[p4 fa4]|e] eqn:Hdop; [|done].
  apply add_mapped_fields_built in Hdop;
    [|repeat constructor; cbn [snd]; apply conv_safe_float_scalar].
  pose proof (add_text_field_built msg "system_id" "system_id" (p4, fa4))
    as Hb5.
  destruct (add_text_field msg "system_id" "system_id" _) as [p5 fa5].
  cbn [fst] in Hb5. intros [= <- <-].
  constructor; [done|].
  repeat (eapply built_from_trans; [eassumption|]). constructor.
Qed.

Lemma build_navigation_point_built msg timestamp point fa :
  build_navigation_point msg timestamp = Ok (point, fa) →
  built_from (set_time timestamp (new_point "gps_navigation_data")) point.
Proof.
  unfold build_navigation_point. step_M. unfold result_bind.
  destruct (add_mapped_fields msg nav_fields _ false)
    as [[p1 fa1]|e] eqn:Hnav; [|done].
  apply add_mapped_fields_built in Hnav;
    [|repeat constructor; cbn [snd]; apply conv_safe_float_scalar].
  pose proof (add_text_field_built msg "faa_mode" "faa_mode" (p1, fa1)) as Hb2.
  destruct (add_text_field msg "faa_mode" "faa_mode" _) as [p2 fa2].
  cbn [fst] in Hb2. intros [= <- <-].
  constructor; [done|]. by eapply built_from_trans.
Qed.

Lemma built_from_scalar start point :
  built_from start point →
  (∀ k v, fields start !! k = Some v → is_scalar v = true) →
  ∀ k v, fields point !! k = Some v → is_scalar v = true.
Proof.
  induction 1 as [|k0 v0 point Hv0 _ IH]; [done|].
  intros Hstart k v. cbn [fields field].
  destruct (decide (k0 = k)) as [->|Hne].
  - rewrite lookup_insert_eq. by intros [= <-].
  - rewrite lookup_insert_ne by done. by apply IH.
Qed.

End FieldWrites.

(** ** What a routed sentence yields *)

Section RoutedPoints.
Context `{Env}.

Lemma parse_nmea_sentence_point_inv sentence w point w' :
  parse_nmea_sentence sentence w = (Ok (Some point), w') →
  ∃ msg p w2,
    pynmea2_parse sentence = Ok msg
    ∧ find_parser (prefix6 sentence) parsers = Some p
    ∧ run_parser p msg (clock_reading (clock_reads w)) (prefix6 sentence)
        (utcnow (decode sentence w).2).2 = (Ok (Some point), w2)
    ∧ w' = (log (DebugParsed (prefix6 sentence))
              (update_stats (add_sentences_parsed 1) w2).2).2.
Proof.
  destruct (pynmea2_parse sentence) as [msg|e] eqn:Hdecode;
    [|by rewrite (parse_nmea_sentence_decode_error _ _ _ Hdecode)].
  destruct (find_parser (prefix6 sentence) parsers) as [p|] eqn:Hfind;
    [|by rewrite (parse_nmea_sentence_no_parser _ _ _ Hdecode Hfind)].
  rewrite (parse_nmea_sentence_routed _ _ _ _ Hdecode Hfind).
  destruct (run_parser p msg _ _ _) as [[[pt|]|e] w2] eqn:Hrun; [|done..].
  intros [= <- <-]. by exists msg, p, w2.
Qed.

Lemma find_parser_key key p :
  find_parser key parsers = Some p →
  match p with
  | PositionParser => key = "$GPGGA" ∨ key = "$GPRMC"
  | SatelliteParser => key = "$GPGSV"
  | DopParser => key = "$GPGSA"
  | NavigationParser => key = "$GPVTG"
  end.
Proof.
  cbn [find_parser parsers existsb].
  repeat match goal with
  | |- context [String.eqb key ?k] =>
      destruct (String.eqb_spec key k) as [->|_]
  end; cbn [orb]; intros [= <-]; auto.
Qed.

Lemma create_position_point_built msg timestamp sentence_type w point w' :
  create_position_point msg timestamp sentence_type w = (Ok (Some point), w') →
  built_from (set_time timestamp (new_point "gps_position")) point
  ∧ fields point !! "source_sentence" = Some (PyStr sentence_type).
Proof.
  unfold create_position_point.
  destruct (hasattr msg "latitude" && hasattr msg "longitude"
            && truthy (getattr msg "latitude")
            && truthy (getattr msg "longitude"));
    cbv beta iota delta [negb]; [|done].
  step_M.
  destruct (safe_float (getattr msg "latitude")) as [[lat|]|e1]; [| |done].
  2:{ by destruct (safe_float (getattr msg "longitude")) as [[lon|]|e2]. }
  destruct (safe_float (getattr msg "longitude")) as [[lon|]|e2]; [|done..].
  destruct (add_mapped_fields msg position_field_mappings _ false)
    as [[p1 a1]|e3] eqn:Hmapped; [|done].
  destruct (add_speed_conversions msg p1) as [p2|e4] eqn:Hspeed; [|done].
  unfold update_stats, log. intros [= <- <-].
  split; [|cbn [fields field]; by rewrite lookup_insert_eq].
  apply built_field; [done|].
  apply add_mapped_fields_built in Hmapped.
  2:{ repeat constructor; cbn [snd];
        first [apply conv_safe_float_scalar|apply conv_safe_int_scalar
              |apply conv_str_scalar]. }
  assert (Hb2 : built_from p1 p2).
  { unfold add_speed_conversions in Hspeed.
    destruct (hasattr msg "spd_over_grnd"
              && truthy (getattr msg "spd_over_grnd"));
      [|injection Hspeed as <-; apply built_start].
    step_result.
    destruct (safe_float (getattr msg "spd_over_grnd")) as [[speed|]|e];
      [| |done]; injection Hspeed as <-; [|apply built_start].
    apply built_field; [done|]. apply built_field; [done|apply built_start]. }
  eapply built_from_trans; [|exact Hb2].
  eapply built_from_trans; [|exact Hmapped].
  change (built_from (set_time timestamp (new_point "gps_position"))
            (field "longitude" (PyFloat lon)
               (field "latitude" (PyFloat lat)
                  (set_time timestamp (new_point "gps_position"))))).
  apply built_field; [done|]. apply built_field; [done|apply built_start].
Qed.

End RoutedPoints.

Section RoutedBatch.
Context `{Env}.

Lemma create_of_build_inv (build : result (Point * bool)) point :
  ('(p, fa) ← build; Ok (if fa : bool then Some p else None)) = Ok (Some point) →
  build = Ok (point, true).
Proof.
  destruct build as [[p fa]|e]; [|done]. simpl.
  destruct fa; [|done]. by intros [= <-].
Qed.

Lemma build_satellite_point_source msg timestamp point fa :
  build_satellite_point msg timestamp = Ok (point, fa) →
  fields point !! "source_sentence" = Some (PyStr "$GPGSV").
Proof.
  unfold build_satellite_point. step_M. unfold result_bind.
  destruct (add_mapped_fields msg satellite_basic_fields _ false)
    as [[p1 fa1]|e]; [|done].
  destruct (for_range (seq 1 4) (satellite_slot msg) (p1, 0, fa1))
    as [[[p2 processed] fa2]|e]; [|done].
  intros [= <- <-]. cbn [fields field]. by rewrite lookup_insert_eq.
Qed.

Lemma build_dop_point_source msg timestamp point fa :
  build_dop_point msg timestamp = Ok (point, fa) →
  fields point !! "source_sentence" = Some (PyStr "$GPGSA").
Proof.
  unfold build_dop_point.
  destruct (add_text_field msg "mode" "mode" _) as [p0 fa0].
  step_M. unfold result_bind.
  match goal with
  | |- match ?fix_step with Ok _ => _ | Raise _ => _ end = _ → _ =>
      destruct fix_step as [[p1 fa1]|e]
  end; [|done].
  destruct (for_range (seq 1 12) (active_satellite_slot msg) (p1, [], fa1))
    as [[[p2 active] fa2]|e]; [|done].
  match goal with
  | |- (let '(_, _) := ?st in _) = _ → _ => destruct st as [p3 fa3]
  end.
  destruct (add_mapped_fields msg dop_fields p3 fa3) as [[p4 fa4]|e]; [|done].
  destruct (add_text_field msg "system_id" "system_id" _) as [p5 fa5].
  intros [= <- <-]. cbn [fields field]. by rewrite lookup_insert_eq.
Qed.

Lemma build_navigation_point_source msg timestamp point fa :
  build_navigation_point msg timestamp = Ok (point, fa) →
  fields point !! "source_sentence" = Some (PyStr "$GPVTG").
Proof.
  unfold build_navigation_point. step_M. unfold result_bind.
  destruct (add_mapped_fields msg nav_fields _ false) as [[p1 fa1]|e]; [|done].
  destruct (add_text_field msg "faa_mode" "faa_mode" _) as [p2 fa2].
  intros [= <- <-]. cbn [fields field]. by rewrite lookup_insert_eq.
Qed.

Lemma built_from_new_scalar name timestamp point :
  built_from (set_time timestamp (new_point name)) point →
  ∀ k v, fields point !! k = Some v → is_scalar v = true.
Proof.
  intros Hbuilt. apply (built_from_scalar _ _ Hbuilt).
  intros k v. cbn. by rewrite lookup_empty.
Qed.

Lemma run_parser_well_routed p msg timestamp key w point w' :
  find_parser key parsers = Some p →
  run_parser p msg timestamp key w = (Ok (Some point), w') →
  well_routed point key.
Proof.
  intros Hkey%find_parser_key. unfold well_routed.
  destruct p; cbn [run_parser]; unfold lift.
  - intros Hrun.
    destruct (create_position_point_built _ _ _ _ _ _ Hrun) as [Hbuilt Hsrc].
    apply create_position_point_cases in Hrun
      as [[_ Hno]|(pt & ? & ? & [= <-] & [Hname _] & _)];
      [by destruct (Hno point)|].
    split_and!; [|done|by eapply built_from_new_scalar].
    rewrite Hname. by destruct Hkey as [->| ->].
  - intros [= Hrun _]. subst key.
    pose proof (create_of_build_stamped "satellite_data" timestamp _ _
                  (build_satellite_point_stamped msg timestamp) Hrun)
      as [Hname _].
    apply create_of_build_inv in Hrun. split_and!.
    + by rewrite Hname.
    + by eapply build_satellite_point_source.
    + eapply built_from_new_scalar. by eapply build_satellite_point_built.
  - intros [= Hrun _]. subst key.
    pose proof (create_of_build_stamped "gps_dop_data" timestamp _ _
                  (build_dop_point_stamped msg timestamp) Hrun) as [Hname _].
    apply create_of_build_inv in Hrun. split_and!.
    + by rewrite Hname.
    + by eapply build_dop_point_source.
    + eapply built_from_new_scalar. by eapply build_dop_point_built.
  - intros [= Hrun _]. subst key.
    pose proof (create_of_build_stamped "gps_navigation_data" timestamp _ _
                  (build_navigation_point_stamped msg timestamp) Hrun)
      as [Hname _].
    apply create_of_build_inv in Hrun. split_and!.
    + by rewrite Hname.
    + by eapply build_navigation_point_source.
    + eapply built_from_new_scalar. by eapply build_navigation_point_built.
Qed.

Lemma parse_nmea_sentence_well_routed sentence w point w' :
  parse_nmea_sentence sentence w = (Ok (Some point), w') →
  well_routed point (prefix6 sentence).
Proof.
  intros (msg & p & w2 & _ & Hfind & Hrun & _)%parse_nmea_sentence_point_inv.
  by eapply run_parser_well_routed.
Qed.

Lemma processes_well_routed sentences b w b' w' :
  processes sentences b w b' w' →
  Forall2 well_routed (points_to_write b) (parsed_sentences b) →
  Forall2 well_routed (points_to_write b') (parsed_sentences b').
Proof.
  induction 1 as [b w
                 |s rest b w b' w' _ _ IH
                 |s rest b w b' w' _ _ _ IH
                 |s rest b w point w1 b' w' _ Hsentence _ _ IH
                 |s rest b w w1 b' w' _ _ _ _ IH]; intros Hacc; auto.
  apply IH. cbn [keep tally points_to_write parsed_sentences].
  apply Forall2_app; [done|]. constructor; [|constructor].
  by eapply parse_nmea_sentence_well_routed.
Qed.

(** The points a batch returns line up with its list of parsed type keys:
    the i-th point is stored under the measurement registered for the i-th
    key, names that key in [source_sentence], and holds only numbers and
    texts (never [None]). *)
Theorem batch_points_match_parsed_keys
    (sentences : list string) (w : World) (b : Batch) (w' : World) :
  parse_nmea_sentences sentences w = (Ok b, w') →
  Forall2 well_routed (points_to_write b) (parsed_sentences b).
Proof.
  intros Hrun.
  destruct (parse_loop_processes sentences empty_batch w)
    as (b0 & w0 & Hrun0 & Hproc).
  unfold parse_nmea_sentences in Hrun. rewrite Hrun in Hrun0.
  injection Hrun0 as <- <-.
  apply (processes_well_routed _ _ _ _ _ Hproc). constructor.
Qed.

End RoutedBatch.

Lemma batch_points_match_parsed_keys_witness :
  ∃ b w',
    @parse_nmea_sentences sample_env
      ["$GPGSV,3,1,11"; "junk"; "$GPRMC,fix"] initial_world = (Ok b, w')
    ∧ parsed_sentences b = ["$GPGSV"; "$GPRMC"]
    ∧ Forall2 (@well_routed) (points_to_write b) (parsed_sentences b).
Proof.
  destruct (@parse_nmea_sentences sample_env
              ["$GPGSV,3,1,11"; "junk"; "$GPRMC,fix"] initial_world)
    as [r w'] eqn:Hrun.
  assert (Hvalue := Hrun). vm_compute in Hvalue.
  destruct r as [b|e]; [|discriminate Hvalue].
  exists b, w'. split; [done|]. split.
  - injection Hvalue as <- _. by vm_compute.
  - exact (@batch_points_match_parsed_keys sample_env _ _ _ _ Hrun).
Defined.

(** ** Counters, decoder calls and the per-type tally of a batch *)

Section BatchAccounting.
Context `{Env}.

Lemma processes_accounting sentences b w b' w' :
  processes sentences b w b' w' →
  sentences_parsed (stats w') - sentences_parsed (stats w)
  = Z.of_nat (length (points_to_write b')) - Z.of_nat (length (points_to_write b))
  ∧ sentences_received (stats w') = sentences_received (stats w)
  ∧ points_written (stats w') = points_written (stats w)
  ∧ decoder_calls w'
    = decoder_calls w ++ map strip (List.filter routable sentences).
Proof.
  induction 1 as [b w
                 |s rest b w b' w' Hinvalid _ IH
                 |s rest b w b' w' Hinvalid Hembedded _ IH
                 |s rest b w point w1 b' w' Hroutable _ Heffects _ IH
                 |s rest b w w1 b' w' Hroutable _ Heffects _ IH].
  - cbn. rewrite app_nil_r. split_and!; [lia|done..].
  - assert (Hroutable : routable s = false)
      by (unfold routable; by rewrite Hinvalid).
    cbn [List.filter]. by rewrite Hroutable.
  - assert (Hroutable : routable s = false)
      by (unfold routable; by rewrite Hinvalid, Hembedded).
    cbn [List.filter]. by rewrite Hroutable.
  - destruct IH as (IH1 & IH2 & IH3 & IH4).
    destruct Heffects as (Hcalls & _ & _ & Hreceived & Hwritten & Hparsed & _).
    cbn [keep tally points_to_write] in IH1. rewrite length_app in IH1.
    cbn [length] in IH1.
    cbn [List.filter]. rewrite Hroutable. cbn [map].
    split_and!; [lia|congruence..|].
    by rewrite IH4, Hcalls, <- app_assoc.
  - destruct IH as (IH1 & IH2 & IH3 & IH4).
    destruct Heffects as (Hcalls & _ & _ & Hreceived & Hwritten & Hparsed & _).
    cbn [skip tally points_to_write] in IH1.
    cbn [List.filter]. rewrite Hroutable. cbn [map].
    split_and!; [lia|congruence..|].
    by rewrite IH4, Hcalls, <- app_assoc.
Qed.

(** A batch advances [sentences_parsed] by exactly the number of points it
    returns, leaves [sentences_received] and [points_written] alone, and
    calls the decoder once for each ["$"]-led sentence without an embedded
    newline, in input order, on the stripped text, and on no other. *)
Theorem batch_counts_and_decoder_calls (sentences : list string) (w : World) :
  ∃ b w',
    parse_nmea_sentences sentences w = (Ok b, w')
    ∧ sentences_parsed (stats w')
      = sentences_parsed (stats w) + Z.of_nat (length (points_to_write b))
    ∧ sentences_received (stats w') = sentences_received (stats w)
    ∧ points_written (stats w') = points_written (stats w)
    ∧ decoder_calls w'
      = decoder_calls w ++ map strip (List.filter routable sentences).
Proof.
  destruct (parse_loop_processes sentences empty_batch w)
    as (b & w' & Hrun & Hproc).
  exists b, w'. split; [done|].
  destruct (processes_accounting _ _ _ _ _ Hproc) as (H1 & H2 & H3 & H4).
  cbn in H1. split_and!; [lia|done..].
Qed.

Lemma tally_lookup (counts : gmap string Z) key k :
  default 0 (<[k := default 0 (counts !! k) + 1]> counts !! key)
  = default 0 (counts !! key) + if String.eqb key k then 1 else 0.
Proof.
  destruct (String.eqb_spec key k) as [->|Hne].
  - by rewrite lookup_insert_eq.
  - rewrite lookup_insert_ne by done. lia.
Qed.

Lemma processes_tally_by_key sentences b w b' w' key :
  processes sentences b w b' w' →
  key ≠ "invalid" → key ≠ "embedded-newlines" →
  default 0 (sentence_type_counts b' !! key)
  + Z.of_nat (count_label key (parsed_sentences b)
              + count_label key (skipped_sentences b))
  = default 0 (sentence_type_counts b !! key)
    + Z.of_nat (count_label key (parsed_sentences b')
                + count_label key (skipped_sentences b')).
Proof.
  intros Hproc Hk1 Hk2.
  apply String.eqb_neq in Hk1, Hk2.
  induction Hproc as [b w
                 |s rest b w b' w' _ _ IH
                 |s rest b w b' w' _ _ _ IH
                 |s rest b w point w1 b' w' _ _ _ _ IH
                 |s rest b w w1 b' w' _ _ _ _ IH]; [done|..].
  - cbn [skip parsed_sentences skipped_sentences sentence_type_counts] in IH.
    rewrite count_label_snoc, Hk1 in IH. lia.
  - cbn [skip parsed_sentences skipped_sentences sentence_type_counts] in IH.
    rewrite count_label_snoc, Hk2 in IH. lia.
  - cbn [keep tally parsed_sentences skipped_sentences sentence_type_counts]
      in IH.
    rewrite tally_lookup in IH. unfold count_label at 1 in IH.
    rewrite List.filter_app, length_app in IH. cbn [List.filter] in IH.
    fold (count_label key (parsed_sentences b)) in IH.
    destruct (String.eqb key (prefix6 (strip s))); cbn [length] in IH; lia.
  - cbn [skip tally parsed_sentences skipped_sentences sentence_type_counts]
      in IH.
    rewrite tally_lookup, count_label_snoc in IH.
    destruct (String.eqb key (prefix6 (strip s))); lia.
Qed.

Lemma processes_tally_keys sentences b w b' w' :
  processes sentences b w b' w' →
  (∀ key n, sentence_type_counts b !! key = Some n →
     startswith_dollar key = true ∧ 1 ≤ n) →
  ∀ key n, sentence_type_counts b' !! key = Some n →
    startswith_dollar key = true ∧ 1 ≤ n.
Proof.
  assert (Hstep : ∀ s b,
    routable s = true →
    (∀ key n, sentence_type_counts b !! key = Some n →
       startswith_dollar key = true ∧ 1 ≤ n) →
    ∀ key n, sentence_type_counts (tally (prefix6 (strip s)) b) !! key = Some n →
      startswith_dollar key = true ∧ 1 ≤ n).
  { intros s0 b0 [Hinvalid _]%routable_valid Hacc key n.
    cbn [tally sentence_type_counts].
    destruct (decide (prefix6 (strip s0) = key)) as [<-|Hne].
    - rewrite lookup_insert_eq. intros [= <-]. split.
      + unfold is_invalid in Hinvalid. destruct (strip s0) as [|c t]; [done|].
        cbn in *. by destruct (Ascii.eqb c "$").
      + destruct (sentence_type_counts b0 !! prefix6 (strip s0)) as [m|] eqn:Hm;
          cbn; [|lia]. destruct (Hacc _ _ Hm). lia.
    - rewrite lookup_insert_ne by done. apply Hacc. }
  induction 1 as [b w
                 |s rest b w b' w' _ _ IH
                 |s rest b w b' w' _ _ _ IH
                 |s rest b w point w1 b' w' Hroutable _ _ _ IH
                 |s rest b w w1 b' w' Hroutable _ _ _ IH]; intros Hacc; auto.
  - apply IH. by apply (Hstep s b).
  - apply IH. by apply (Hstep s b).
Qed.

(** The per-type tally agrees, key by key, with the two lists of the
    batch: the count of a type key is the number of times it was parsed
    plus the number of times it was skipped; every key of the tally begins
    with ["$"] and has a count of at least one. *)
Theorem tally_is_parsed_plus_skipped_by_key
    (sentences : list string) (w : World) :
  ∃ b w',
    parse_nmea_sentences sentences w = (Ok b, w')
    ∧ (∀ key, key ≠ "invalid" → key ≠ "embedded-newlines" →
         default 0 (sentence_type_counts b !! key)
         = Z.of_nat (count_label key (parsed_sentences b)
                     + count_label key (skipped_sentences b)))
    ∧ (∀ key n, sentence_type_counts b !! key = Some n →
         startswith_dollar key = true ∧ 1 ≤ n).
Proof.
  destruct (parse_loop_processes sentences empty_batch w)
    as (b & w' & Hrun & Hproc).
  exists b, w'. split; [done|]. split.
  - intros key Hk1 Hk2.
    pose proof (processes_tally_by_key _ _ _ _ _ key Hproc Hk1 Hk2) as Hk.
    cbn in Hk. rewrite lookup_empty in Hk. cbn in Hk. lia.
  - apply (processes_tally_keys _ _ _ _ _ Hproc).
    intros key n. cbn. by rewrite lookup_empty.
Qed.

End BatchAccounting.

(** The integer 0, handed over without a converter, is written as it is. *)
Lemma add_field_if_valid_writes_only_its_field_witness :
  fields (field "satellites" (PyInt 0) (new_point "gps_position"))
    !! "satellites" = Some (PyInt 0)
  ∧ ∀ k, k ≠ "satellites" →
      fields (field "satellites" (PyInt 0) (new_point "gps_position")) !! k
      = fields (new_point "gps_position") !! k.
Proof.
  destruct (add_field_if_valid_writes_only_its_field
              (new_point "gps_position") "satellites" (PyInt 0) None
              (field "satellites" (PyInt 0) (new_point "gps_position")) true
              eq_refl) as (Hframe & _ & _ & _ & _ & c & Hc & Hlookup).
  injection Hc as <-. by split.
Defined.

(** ** The tokenizer *)

Section TokenizerFacts.

Lemma contains_existsb c s :
  contains c s = existsb (Ascii.eqb c) (list_ascii_of_string s).
Proof. induction s as [|d s IH]; [done|]. cbn. by rewrite IH. Qed.

Lemma contains_reverse c s : contains c (reverse_string s) = contains c s.
Proof.
  unfold reverse_string.
  rewrite !contains_existsb, list_ascii_of_string_of_list_ascii.
  apply eq_true_iff_eq. rewrite !existsb_exists.
  split; intros (x & Hin & Hx); exists x; (split; [|done]).
  - by apply in_rev.
  - by apply in_rev in Hin.
Qed.

Lemma contains_lstrip c s : contains c (lstrip s) = true → contains c s = true.
Proof.
  induction s as [|d s IH]; [done|]. cbn.
  destruct (is_space d); [|done].
  intros Hc. rewrite (IH Hc). apply orb_true_r.
Qed.

Lemma contains_strip c s : contains c (strip s) = true → contains c s = true.
Proof.
  unfold strip. rewrite contains_reverse. intros Hc.
  apply contains_lstrip in Hc. rewrite contains_reverse in Hc.
  by apply contains_lstrip.
Qed.

Lemma contains_replace_cr s : contains CR (replace_cr s) = false.
Proof.
  induction s as [|d s IH]; [done|]. cbn [replace_cr contains].
  rewrite IH, orb_false_r.
  destruct (Ascii.eqb_spec d CR) as [->|Hne]; [done|].
  by apply Ascii.eqb_neq.
Qed.

Lemma split_lf_not_nil s : split_lf s ≠ [].
Proof.
  destruct s as [|d s]; [done|]. cbn [split_lf].
  destruct (split_lf s); [done|]. by destruct (Ascii.eqb d LF).
Qed.

Lemma filter_none {A} (f : A → bool) (l : list A) :
  Forall (λ x, f x = false) l → List.filter f l = [].
Proof. induction 1 as [|x l Hx _ IH]; [done|]. cbn. by rewrite Hx. Qed.

Lemma split_lf_pieces s piece :
  In piece (split_lf s) →
  contains LF piece = false
  ∧ ∀ c, contains c piece = true → contains c s = true.
Proof.
  revert piece. induction s as [|d s IH]; intros piece.
  - cbn. intros [<-|[]]. by split.
  - cbn [split_lf]. destruct (split_lf s) as [|first others] eqn:Hsplit.
    { by destruct (split_lf_not_nil s). }
    destruct (Ascii.eqb_spec d LF) as [->|Hne].
    + intros [<-|Hin]; [by split|].
      destruct (IH _ Hin) as [Hlf Hsub]. split; [done|].
      intros c Hc. cbn. rewrite (Hsub c Hc). apply orb_true_r.
    + intros [<-|Hin].
      * destruct (IH first (or_introl eq_refl)) as [Hlf Hsub]. split.
        -- cbn. rewrite Hlf, orb_false_r. apply Ascii.eqb_neq. congruence.
        -- intros c. cbn. intros [Hc|Hc]%orb_prop; [by rewrite Hc|].
           rewrite (Hsub c Hc). apply orb_true_r.
      * destruct (IH piece (or_intror Hin)) as [Hlf Hsub]. split; [done|].
        intros c Hc. cbn. rewrite (Hsub c Hc). apply orb_true_r.
Qed.

(** Every sentence the handler's tokenizer produces is a non-empty line
    that holds neither a line feed nor a carriage return. *)
Theorem tokens_are_nonempty_single_lines (nmea_data : string) :
  Forall (λ t, t ≠ "" ∧ contains LF t = false ∧ contains CR t = false)
    (tokenize nmea_data).
Proof.
  unfold tokenize. apply Forall_forall. intros t Hin.
  apply list_elem_of_In, in_map_iff in Hin as (line & <- & Hline).
  apply filter_In in Hline as [Hline Hnonempty].
  apply split_lf_pieces in Hline as [Hlf Hsub].
  split_and!.
  - intros Hempty. rewrite Hempty in Hnonempty. discriminate Hnonempty.
  - destruct (contains LF (strip line)) eqn:Hc; [|done].
    apply contains_strip in Hc. congruence.
  - destruct (contains CR (strip line)) eqn:Hc; [|done].
    apply contains_strip, Hsub in Hc.
    by rewrite contains_replace_cr in Hc.
Qed.

End TokenizerFacts.

Section HandlerBatches.
Context `{Env}.

Lemma tokens_routable_iff_dollar nmea_data :
  List.filter routable (tokenize nmea_data)
  = List.filter (λ t, startswith_dollar (strip t)) (tokenize nmea_data).
Proof.
  apply filter_ext_in. intros t Hin.
  pose proof (tokens_are_nonempty_single_lines nmea_data) as Hclean.
  rewrite Forall_forall in Hclean.
  destruct (Hclean t) as (_ & Hlf & Hcr); [by apply list_elem_of_In|].
  unfold routable, has_embedded_newline, is_invalid.
  destruct (contains LF (strip t)) eqn:Hlf'.
  { apply contains_strip in Hlf'. congruence. }
  destruct (contains CR (strip t)) eqn:Hcr'.
  { apply contains_strip in Hcr'. congruence. }
  destruct (strip t) as [|c rest]; [done|]. cbn.
  by destruct (Ascii.eqb c "$").
Qed.

(** On the sentences the handler tokenizes, the embedded-newline guard of
    the batch loop never fires, and the number of parsed type keys plus
    the number of skipped type keys is the number of ["$"]-led sentences. *)
Theorem tokenized_batches_never_hit_newline_guard
    (nmea_data : string) (w : World) :
  ∃ b w',
    parse_nmea_sentences (tokenize nmea_data) w = (Ok b, w')
    ∧ count_label "embedded-newlines" (skipped_sentences b) = 0%nat
    ∧ (length (parsed_sentences b) + length (typed_skips (skipped_sentences b))
       = length (List.filter (λ t, startswith_dollar (strip t))
                   (tokenize nmea_data)))%nat.
Proof.
  destruct (parse_loop_processes (tokenize nmea_data) empty_batch w)
    as (b & w' & Hrun & Hproc).
  exists b, w'. split; [done|].
  destruct (processes_counts _ _ _ _ _ Hproc)
    as (_ & _ & _ & Hembedded & Htyped & _).
  cbn in Hembedded, Htyped.
  rewrite <- tokens_routable_iff_dollar. split; [|lia].
  rewrite Hembedded, filter_none; [done|].
  eapply Forall_impl; [apply tokens_are_nonempty_single_lines|].
  cbn beta. intros t (_ & Hlf & Hcr).
  unfold has_embedded_newline.
  destruct (contains LF (strip t)) eqn:Hlf'.
  { apply contains_strip in Hlf'. congruence. }
  destruct (contains CR (strip t)) eqn:Hcr'.
  { apply contains_strip in Hcr'. congruence. }
  apply andb_false_r.
Qed.

End HandlerBatches.

(** ** The outcomes of a batch of candidates *)

Section CandidateOutcomes.
Context `{Env}.

Lemma is_invalid_dollar sentence :
  is_invalid sentence = negb (startswith_dollar sentence).
Proof. by destruct sentence. Qed.

Lemma skip_labels_partition skipped :
  length skipped
  = (length (typed_skips skipped) + count_label "invalid" skipped
     + count_label "embedded-newlines" skipped)%nat.
Proof.
  unfold typed_skips, count_label.
  induction skipped as [|label rest IH]; [done|].
  cbn [List.filter].
  rewrite (String.eqb_sym "invalid" label),
    (String.eqb_sym "embedded-newlines" label).
  destruct (String.eqb_spec label "invalid") as [->|Hinvalid].
  { change (String.eqb "invalid" "embedded-newlines") with false.
    cbn [negb andb length]. lia. }
  destruct (String.eqb_spec label "embedded-newlines") as [->|Hembedded];
    cbn [negb andb length]; lia.
Qed.

Lemma token_single_line nmea_data t :
  In t (tokenize nmea_data) → has_embedded_newline (strip t) = false.
Proof.
  unfold tokenize. intros (line & <- & Hline)%in_map_iff.
  apply filter_In in Hline as [Hline _].
  apply split_lf_pieces in Hline as [Hlf Hsub].
  unfold has_embedded_newline.
  destruct (contains LF (strip (strip line))) eqn:Hc.
  { do 2 apply contains_strip in Hc. congruence. }
  destruct (contains CR (strip (strip line))) eqn:Hc'; [|done].
  do 2 apply contains_strip in Hc'. apply Hsub in Hc'.
  by rewrite contains_replace_cr in Hc'.
Qed.

(** C6: for every body text, the batch loop run on the candidate sentences
    the tokenizer yields returns a batch in which every candidate has
    exactly one of the four outcomes: there is one entry per candidate in
    the parsed list or the skip list, every skip entry is a type key,
    ["invalid"] or ["embedded-newlines"], the ["invalid"] entries are as
    many as the candidates without a leading ["$"], and no entry is
    ["embedded-newlines"].  The number of parsed type keys plus the number
    of skip entries other than ["invalid"] and ["embedded-newlines"] is
    the number of ["$"]-led candidates, which is also the sum of the
    per-type counts. *)
Theorem candidate_outcomes_partition_batch (nmea_data : string) (w : World) :
  ∃ b w',
    parse_nmea_sentences (tokenize nmea_data) w = (Ok b, w')
    ∧ length (points_to_write b) = length (parsed_sentences b)
    ∧ (length (parsed_sentences b) + length (skipped_sentences b)
       = length (tokenize nmea_data))%nat
    ∧ length (skipped_sentences b)
      = (length (typed_skips (skipped_sentences b))
         + count_label "invalid" (skipped_sentences b)
         + count_label "embedded-newlines" (skipped_sentences b))%nat
    ∧ count_label "invalid" (skipped_sentences b)
      = length (List.filter (fun s => negb (startswith_dollar (strip s)))
                  (tokenize nmea_data))
    ∧ count_label "embedded-newlines" (skipped_sentences b) = 0%nat
    ∧ (length (parsed_sentences b) + length (typed_skips (skipped_sentences b))
       = length (List.filter (fun s => startswith_dollar (strip s))
                   (tokenize nmea_data)))%nat
    ∧ tally_total (sentence_type_counts b)
      = Z.of_nat (length (List.filter (fun s => startswith_dollar (strip s))
                            (tokenize nmea_data))).
Proof.
  destruct (parse_loop_processes (tokenize nmea_data) empty_batch w)
    as (b & w' & Hrun & Hproc).
  exists b, w'. split; [done|].
  destruct (processes_counts _ _ _ _ _ Hproc)
    as (Hpoints & Hentries & Hinvalid & Hembedded & Htyped & Htally & _).
  cbn [empty_batch points_to_write parsed_sentences skipped_sentences
       sentence_type_counts typed_skips count_label List.filter length
       Nat.add] in Hpoints, Hentries, Hinvalid, Hembedded, Htyped, Htally.
  rewrite tally_total_empty in Htally.
  assert (List.filter routable (tokenize nmea_data)
          = List.filter (fun s => startswith_dollar (strip s))
              (tokenize nmea_data)) as Hroutable.
  { apply filter_ext_in. intros t Hin. unfold routable.
    rewrite (token_single_line _ _ Hin), is_invalid_dollar.
    by rewrite negb_involutive, andb_true_r. }
  assert (List.filter (fun s => is_invalid (strip s)) (tokenize nmea_data)
          = List.filter (fun s => negb (startswith_dollar (strip s)))
              (tokenize nmea_data)) as Hundollared.
  { apply filter_ext. intros t. apply is_invalid_dollar. }
  assert (List.filter
            (fun s => negb (is_invalid (strip s))
                      && has_embedded_newline (strip s))
            (tokenize nmea_data) = []) as Hnone.
  { apply filter_none, Forall_forall. intros t Hin.
    rewrite (token_single_line nmea_data t); [apply andb_false_r|].
    by apply list_elem_of_In. }
  rewrite Hroutable in Htyped, Htally. rewrite Hundollared in Hinvalid.
  rewrite Hnone in Hembedded. cbn [length] in Hembedded.
  pose proof (skip_labels_partition (skipped_sentences b)) as Hlabels.
  split_and!; lia.
Qed.

End CandidateOutcomes.

(** ** The last known position *)

Section LastPosition.
Context `{Env}.

Lemma create_position_point_records msg timestamp sentence_type w point w' :
  create_position_point msg timestamp sentence_type w = (Ok (Some point), w') →
  records_position (stats w') point.
Proof.
  unfold create_position_point, records_position.
  destruct (hasattr msg "latitude" && hasattr msg "longitude"
            && truthy (getattr msg "latitude")
            && truthy (getattr msg "longitude"));
    cbv beta iota delta [negb]; [|done].
  step_M.
  destruct (safe_float (getattr msg "latitude")) as [[lat|]|e1]; [| |done].
  2:{ by destruct (safe_float (getattr msg "longitude")) as [[lon|]|e2]. }
  destruct (safe_float (getattr msg "longitude")) as [[lon|]|e2]; [|done..].
  destruct (add_mapped_fields msg position_field_mappings _ false)
    as [[p1 a1]|e3] eqn:Hmapped; [|done].
  destruct (add_speed_conversions msg p1) as [p2|e4] eqn:Hspeed; [|done].
  unfold update_stats, log. intros [= <- <-].
  destruct (add_speed_conversions_lookup msg p1 p2 "latitude" Hspeed)
    as (Hlat2 & _ & Ht2); [done..|].
  destruct (add_speed_conversions_lookup msg p1 p2 "longitude" Hspeed)
    as (Hlon2 & _ & _); [done..|].
  destruct (add_mapped_fields_measurement _ _ _ _ _ _ Hmapped) as [_ Ht1].
  exists lat, lon, timestamp. cbn [stats last_position last_update
    set_last_position fields field time].
  split_and!; [| |by rewrite Ht2, Ht1|done..].
  - rewrite lookup_insert_ne by done. rewrite Hlat2.
    rewrite (add_mapped_fields_lookup _ _ _ _ _ _ "latitude" Hmapped).
    + cbn [fields field set_time new_point].
      by rewrite lookup_insert_ne, lookup_insert_eq.
    + cbn. not_in_list.
  - rewrite lookup_insert_ne by done. rewrite Hlon2.
    rewrite (add_mapped_fields_lookup _ _ _ _ _ _ "longitude" Hmapped).
    + cbn [fields field set_time new_point]. by rewrite lookup_insert_eq.
    + cbn. not_in_list.
Qed.

Lemma parse_nmea_sentence_records sentence w point w' :
  parse_nmea_sentence sentence w = (Ok (Some point), w') →
  is_position point = true →
  records_position (stats w') point.
Proof.
  intros (msg & p & w2 & _ & _ & Hrun & ->)%parse_nmea_sentence_point_inv
    Hposition.
  apply String.eqb_eq in Hposition.
  assert (Hrecords : records_position (stats w2) point); [|done].
  destruct p; cbn [run_parser] in Hrun;
    [by eapply create_position_point_records|..];
    exfalso; unfold lift in Hrun; injection Hrun as Hrun _.
  - by apply (create_of_build_stamped "satellite_data" _ _ _
                (build_satellite_point_stamped msg _)) in Hrun as [Hname _];
      rewrite Hposition in Hname.
  - by apply (create_of_build_stamped "gps_dop_data" _ _ _
                (build_dop_point_stamped msg _)) in Hrun as [Hname _];
      rewrite Hposition in Hname.
  - by apply (create_of_build_stamped "gps_navigation_data" _ _ _
                (build_navigation_point_stamped msg _)) in Hrun as [Hname _];
      rewrite Hposition in Hname.
Qed.

Lemma last_position_point_snoc points point :
  last_position_point (points ++ [point])
  = if is_position point then Some point else last_position_point points.
Proof.
  unfold last_position_point. rewrite List.filter_app. cbn [List.filter].
  destruct (is_position point); [apply last_snoc|by rewrite app_nil_r].
Qed.

Lemma processes_records sentences b w b' w' :
  processes sentences b w b' w' →
  (∀ point, last_position_point (points_to_write b) = Some point →
     records_position (stats w) point) →
  ∀ point, last_position_point (points_to_write b') = Some point →
    records_position (stats w') point.
Proof.
  assert (Hframe : ∀ (s1 s2 : Stats) point,
    last_position s2 = last_position s1 → last_update s2 = last_update s1 →
    records_position s1 point → records_position s2 point).
  { intros s1 s2 point Hp Hu (lat & lon & ts & ? & ? & ? & ? & ?).
    exists lat, lon, ts. split_and!; congruence. }
  induction 1 as [b w
                 |s rest b w b' w' _ _ IH
                 |s rest b w b' w' _ _ _ IH
                 |s rest b w pt w1 b' w' _ Hsentence Heffects _ IH
                 |s rest b w w1 b' w' _ _ Heffects _ IH]; intros Hacc; auto.
  - apply IH. cbn [keep tally points_to_write].
    intros point. rewrite last_position_point_snoc.
    destruct (is_position pt) eqn:Hposition.
    + intros [= <-]. by eapply parse_nmea_sentence_records.
    + intros Hlast.
      destruct Heffects as (_ & _ & _ & _ & _ & _ & [[Hp Hu]|Hgps]).
      * eapply Hframe; [done..|]. by apply Hacc.
      * destruct Hgps as (pt' & [= <-] & Hname).
        unfold is_position in Hposition. rewrite Hname in Hposition.
        discriminate Hposition.
  - apply IH. cbn [skip tally points_to_write]. intros point Hlast.
    destruct Heffects as (_ & _ & _ & _ & _ & _ & [[Hp Hu]|Hgps]).
    + eapply Hframe; [done..|]. by apply Hacc.
    + by destruct Hgps as (pt' & [=] & _).
Qed.

(** After a batch that built at least one position fix, [last_position]
    and [last_update] hold the coordinates and the time of the last
    [gps_position] point the batch returns. *)
Theorem last_position_is_last_fix_of_batch
    (sentences : list string) (w : World) (b : Batch) (w' : World)
    (point : Point) :
  parse_nmea_sentences sentences w = (Ok b, w') →
  last_position_point (points_to_write b) = Some point →
  records_position (stats w') point.
Proof.
  intros Hrun Hlast.
  destruct (parse_loop_processes sentences empty_batch w)
    as (b0 & w0 & Hrun0 & Hproc).
  unfold parse_nmea_sentences in Hrun. rewrite Hrun in Hrun0.
  injection Hrun0 as <- <-.
  by apply (processes_records _ _ _ _ _ Hproc).
Qed.

End LastPosition.

Lemma last_position_is_last_fix_of_batch_witness :
  ∃ b w' point,
    @parse_nmea_sentences sample_env
      ["$GPRMC,fix"; "$GPGSV,3,1,11"] initial_world = (Ok b, w')
    ∧ last_position_point (points_to_write b) = Some point
    ∧ last_position (stats w') = Some (51.5, -0.12)%float
    ∧ last_update (stats w') = Some 1000
    ∧ records_position (stats w') point.
Proof.
  destruct (@parse_nmea_sentences sample_env
              ["$GPRMC,fix"; "$GPGSV,3,1,11"] initial_world)
    as [r w'] eqn:Hrun.
  assert (Hvalue := Hrun). vm_compute in Hvalue.
  destruct r as [b|e]; [|discriminate Hvalue].
  destruct (last_position_point (points_to_write b)) as [point|] eqn:Hlast.
  2:{ injection Hvalue as <- _. by vm_compute in Hlast. }
  exists b, w', point. split_and!; [done..| | |].
  - injection Hvalue as _ <-. by vm_compute.
  - injection Hvalue as _ <-. by vm_compute.
  - exact (@last_position_is_last_fix_of_batch sample_env _ _ _ _ _ Hrun Hlast).
Defined.

(** ** The counts of the answer *)

Section CountingMaps.

Lemma tally_total_insert_value (counts : gmap string Z) (k : string) (v : Z) :
  tally_total (<[k := v]> counts)
  = tally_total counts + v - default 0 (counts !! k).
Proof.
  unfold tally_total.
  destruct (counts !! k) as [n|] eqn:Hk; simpl.
  - rewrite <- (insert_delete_eq counts).
    rewrite map_fold_insert_L; [|intros; lia|apply lookup_delete_eq].
    rewrite (map_fold_delete_L _ _ k n counts); [lia|intros; lia|done].
  - rewrite map_fold_insert_L; [lia|intros; lia|done].
Qed.

Lemma count_types_from (types : list string) (counts : gmap string Z) :
  let counted :=
    fold_left (fun counts t => <[t := default 0 (counts !! t) + 1]> counts)
      types counts in
  tally_total counted = tally_total counts + Z.of_nat (length types)
  ∧ ∀ k, default 0 (counted !! k)
         = default 0 (counts !! k) + Z.of_nat (count_label k types).
Proof.
  cbv zeta. revert counts.
  induction types as [|t types IH]; intros counts.
  - cbn. split; [lia|intros; lia].
  - cbn [fold_left]. destruct (IH (<[t := default 0 (counts !! t) + 1]> counts))
      as [IHtotal IHkey].
    split.
    + rewrite IHtotal, tally_total_insert. cbn [length]. lia.
    + intros k. rewrite IHkey, tally_lookup. unfold count_label.
      cbn [List.filter]. destruct (String.eqb k t); cbn [length]; lia.
Qed.

Lemma count_types_total types :
  tally_total (count_types types) = Z.of_nat (length types).
Proof.
  destruct (count_types_from types ∅) as [Htotal _].
  unfold count_types. rewrite Htotal, tally_total_empty. lia.
Qed.

Lemma count_types_lookup types k :
  default 0 (count_types types !! k) = Z.of_nat (count_label k types).
Proof.
  destruct (count_types_from types ∅) as [_ Hkey].
  unfold count_types. rewrite Hkey, lookup_empty. cbn. lia.
Qed.

(** The total of the category counts. *)
Lemma grouped_total_insert (groups : gmap string (list string)) c x :
  tally_total ((λ l, Z.of_nat (length l))
               <$> <[c := default [] (groups !! c) ++ [x]]> groups)
  = tally_total ((λ l, Z.of_nat (length l)) <$> groups) + 1.
Proof.
  rewrite fmap_insert, tally_total_insert_value, lookup_fmap.
  rewrite length_app. cbn [length].
  destruct (groups !! c); cbn; lia.
Qed.

Lemma group_one_registered groups key :
  key ∈ registered_keys →
  ∃ c, group_one groups key
       = <[c := default [] (groups !! c) ++ [key]]> groups.
Proof.
  unfold registered_keys. intros Hkey.
  repeat (apply elem_of_cons in Hkey as [->|Hkey]);
    [..|by apply elem_of_nil in Hkey]; eexists; reflexivity.
Qed.

Lemma group_measurements_total parsed :
  Forall (λ key, key ∈ registered_keys) parsed →
  tally_total ((λ l, Z.of_nat (length l)) <$> group_measurements parsed)
  = Z.of_nat (length parsed).
Proof.
  unfold group_measurements. intros Hkeys.
  assert (Hfrom : ∀ groups,
    tally_total ((λ l, Z.of_nat (length l)) <$> fold_left group_one parsed groups)
    = tally_total ((λ l, Z.of_nat (length l)) <$> groups)
      + Z.of_nat (length parsed)).
  { induction Hkeys as [|key rest Hkey _ IH]; intros groups.
    - cbn. lia.
    - cbn [fold_left]. rewrite IH.
      destruct (group_one_registered groups key Hkey) as [c ->].
      rewrite grouped_total_insert. cbn [length]. lia. }
  rewrite Hfrom, fmap_empty, tally_total_empty. lia.
Qed.

Lemma count_label_typed_skips k skipped :
  count_label k (typed_skips skipped)
  = if negb (String.eqb k "invalid") && negb (String.eqb k "embedded-newlines")
    then count_label k skipped else 0%nat.
Proof.
  unfold count_label, typed_skips.
  induction skipped as [|x rest IH]; [by destruct (_ && _)|].
  cbn [List.filter].
  destruct (String.eqb_spec k x) as [<-|Hne].
  - destruct (negb (String.eqb k "invalid")
              && negb (String.eqb k "embedded-newlines")) eqn:Htyped.
    + cbn [List.filter]. rewrite String.eqb_refl. cbn [length]. by rewrite IH.
    + done.
  - destruct (negb (String.eqb x "invalid")
              && negb (String.eqb x "embedded-newlines")); [|done].
    cbn [List.filter]. by rewrite (proj2 (String.eqb_neq _ _) Hne).
Qed.

End CountingMaps.

(** ** The request handler *)

Section HandlerFacts.
Context `{Env} `{Storage} `{BodyCodec}.

Lemma write_batch_cases points w :
  (write_batch points w = (Ok tt, w)
   ∧ (points = [] ∨ write_api_ready = false))
  ∨ (points ≠ [] ∧ write_api_ready = true
     ∧ write_points points = Ok tt
     ∧ write_batch points w
       = (Ok tt,
          (update_stats (add_points_written (Z.of_nat (length points))) w).2))
  ∨ (points ≠ [] ∧ write_api_ready = true
     ∧ (∃ e, write_points points = Raise e)
     ∧ write_batch points w = (Raise (HTTPException 500), w)).
Proof.
  unfold write_batch. destruct points as [|p rest].
  { left. split; [done|by left]. }
  cbn [length Nat.eqb negb andb].
  destruct write_api_ready; [|left; split; [done|by right]].
  right. step_M.
  destruct (write_points (p :: rest)) as [[]|e] eqn:Hwrite.
  - left. by split_and!.
  - right. split_and!; [done..|by eexists|done].
Qed.

Lemma gps_endpoint_undecodable raw_data w e :
  decode_utf8 raw_data = Raise e →
  gps_endpoint raw_data w = (Raise (HTTPException 500), w).
Proof. intros Hdecode. unfold gps_endpoint. step_M. by rewrite Hdecode. Qed.

Lemma gps_endpoint_empty raw_data w text :
  decode_utf8 raw_data = Ok text →
  strip text = "" →
  gps_endpoint raw_data w = (Raise (HTTPException 500), w).
Proof.
  intros Hdecode Hempty. unfold gps_endpoint. step_M.
  by rewrite Hdecode, Hempty.
Qed.

Lemma gps_endpoint_run raw_data w text :
  decode_utf8 raw_data = Ok text →
  strip text ≠ "" →
  ∃ b w2,
    processes (tokenize (strip text)) empty_batch
      (update_stats (add_sentences_received
                       (Z.of_nat (length (tokenize (strip text))))) w).2
      b w2
    ∧ gps_endpoint raw_data w
      = match write_batch (points_to_write b) w2 with
        | (Ok _, w3) =>
            (Ok {| response_status := "success";
                   sentences_processed :=
                     Z.of_nat (length (tokenize (strip text)));
                   response_points_written :=
                     Z.of_nat (length (points_to_write b));
                   sentence_types := sentence_type_counts b;
                   parsed_counts := count_types (parsed_sentences b);
                   skipped_counts :=
                     count_types (typed_skips (skipped_sentences b));
                   measurement_types :=
                     (λ l, Z.of_nat (length l))
                     <$> group_measurements (parsed_sentences b) |}, w3)
        | (Raise _, w3) => (Raise (HTTPException 500), w3)
        end.
Proof.
  intros Hdecode Hbody. apply String.eqb_neq in Hbody.
  destruct (parse_loop_processes (tokenize (strip text)) empty_batch
              (update_stats (add_sentences_received
                 (Z.of_nat (length (tokenize (strip text))))) w).2)
    as (b & w2 & Hrun & Hproc).
  exists b, w2. split; [done|].
  unfold gps_endpoint. step_M. rewrite Hdecode. cbv beta iota.
  rewrite Hbody.
  unfold parse_nmea_sentences.
  change ((update_stats (add_sentences_received
             (Z.of_nat (length (tokenize (strip text))))) w)) with
    (Ok tt, (update_stats (add_sentences_received
             (Z.of_nat (length (tokenize (strip text))))) w).2).
  cbv beta iota. rewrite Hrun.
  by destruct (write_batch (points_to_write b) w2) as [[[]|e] w3].
Qed.

(** The handler either answers, or fails with a 500 and nothing else.  An
    answer reports the number of tokenized sentences and of points built,
    and the statistics have advanced by those numbers, [points_written]
    only when a storage client is set.  A failure is a body that is not
    UTF-8 or a body that is empty once stripped, both of which change
    nothing, or a refused write, after which [sentences_received] and
    [sentences_parsed] keep their increments while [points_written] is
    unchanged. *)
Theorem gps_endpoint_answers_or_fails_with_500 (raw_data : string) (w : World) :
  ∃ r w',
    gps_endpoint raw_data w = (r, w')
    ∧ match r with
      | Ok response =>
          (∃ text, decode_utf8 raw_data = Ok text
                   ∧ strip text ≠ ""
                   ∧ sentences_processed response
                     = Z.of_nat (length (tokenize (strip text))))
          ∧ response_status response = "success"
          ∧ sentences_received (stats w')
            = sentences_received (stats w) + sentences_processed response
          ∧ sentences_parsed (stats w')
            = sentences_parsed (stats w) + response_points_written response
          ∧ points_written (stats w')
            = points_written (stats w)
              + (if write_api_ready then response_points_written response
                 else 0)
      | Raise e =>
          e = HTTPException 500
          ∧ points_written (stats w') = points_written (stats w)
          ∧ ((∃ e0, decode_utf8 raw_data = Raise e0) ∧ w' = w
             ∨ (∃ text, decode_utf8 raw_data = Ok text ∧ strip text = "")
               ∧ w' = w
             ∨ ∃ text,
                 decode_utf8 raw_data = Ok text
                 ∧ strip text ≠ ""
                 ∧ sentences_received (stats w')
                   = sentences_received (stats w)
                     + Z.of_nat (length (tokenize (strip text)))
                 ∧ sentences_parsed (stats w) < sentences_parsed (stats w'))
      end.
Proof.
  destruct (decode_utf8 raw_data) as [text|e0] eqn:Hdecode.
  2:{ rewrite (gps_endpoint_undecodable _ _ _ Hdecode).
      eexists _, _. split; [done|]. split_and!; [done..|].
      left. split; [by eexists|done]. }
  destruct (decide (strip text = "")) as [Hempty|Hbody].
  { rewrite (gps_endpoint_empty _ _ _ Hdecode Hempty).
    eexists _, _. split; [done|]. split_and!; [done..|].
    right. left. split; [by eexists|done]. }
  destruct (gps_endpoint_run raw_data w text Hdecode Hbody)
    as (b & w2 & Hproc & ->).
  destruct (processes_accounting _ _ _ _ _ Hproc)
    as (Hparsed & Hreceived & Hwritten & _).
  cbn [update_stats snd stats add_sentences_received sentences_parsed
       sentences_received points_written points_to_write empty_batch length]
    in Hparsed, Hreceived, Hwritten.
  destruct (write_batch_cases (points_to_write b) w2)
    as [[-> Hskip]|[(Hpoints & Hready & _ & ->)|(Hpoints & Hready & _ & ->)]].
  - eexists _, _. split; [done|]. cbn.
    split_and!; [by exists text|done|lia|lia|].
    destruct Hskip as [->| ->]; [|lia]. cbn. destruct write_api_ready; lia.
  - eexists _, _. split; [done|]. cbn. rewrite Hready.
    split_and!; [by exists text|done|lia|lia|lia].
  - eexists _, _. split; [done|].
    split_and!; [done..|]. right. right. exists text.
    split_and!; [done|done|lia|].
    destruct (points_to_write b); [done|]. cbn [length] in Hparsed. lia.
Qed.

End HandlerFacts.

Section AnswerCounts.
Context `{Env} `{Storage} `{BodyCodec}.

Lemma measurement_of_key_registered key name :
  measurement_of_key key = Some name → key ∈ registered_keys.
Proof.
  unfold measurement_of_key, registered_keys.
  repeat match goal with
  | |- context [String.eqb key ?k] =>
      destruct (String.eqb_spec key k) as [->|_]; [intros _; set_solver|]
  end.
  done.
Qed.

Lemma count_label_absent k (l : list string) :
  k ∉ l → count_label k l = 0%nat.
Proof.
  unfold count_label. induction l as [|x l IH]; [done|].
  intros [Hne Hl]%not_elem_of_cons. cbn [List.filter].
  rewrite (proj2 (String.eqb_neq _ _) Hne). by apply IH.
Qed.

(** In an answer the counts add up: the parsed counts and the category
    counts both total the number of points reported, and the count of
    every type key in [sentence_types] is its parsed count plus its skipped
    count, so the three totals agree and never exceed the number of
    sentences processed. *)
Theorem answer_counts_add_up
    (raw_data : string) (w : World) (response : Response) (w' : World) :
  gps_endpoint raw_data w = (Ok response, w') →
  tally_total (parsed_counts response) = response_points_written response
  ∧ tally_total (measurement_types response) = response_points_written response
  ∧ (∀ key, default 0 (sentence_types response !! key)
            = default 0 (parsed_counts response !! key)
              + default 0 (skipped_counts response !! key))
  ∧ tally_total (sentence_types response)
    = tally_total (parsed_counts response)
      + tally_total (skipped_counts response)
  ∧ tally_total (sentence_types response) ≤ sentences_processed response.
Proof.
  intros Hrun.
  destruct (decode_utf8 raw_data) as [text|e0] eqn:Hdecode;
    [|by rewrite (gps_endpoint_undecodable _ _ _ Hdecode) in Hrun].
  destruct (decide (strip text = "")) as [Hempty|Hbody];
    [by rewrite (gps_endpoint_empty _ _ _ Hdecode Hempty) in Hrun|].
  destruct (gps_endpoint_run raw_data w text Hdecode Hbody)
    as (b & w2 & Hproc & Hrun').
  rewrite Hrun' in Hrun.
  destruct (write_batch (points_to_write b) w2) as [[[]|e] w3]; [|done].
  injection Hrun as <- <-. cbn [parsed_counts measurement_types sentence_types
    skipped_counts response_points_written sentences_processed].
  destruct (processes_counts _ _ _ _ _ Hproc)
    as (Hpoints & _ & _ & _ & Htyped & Htotal & _).
  cbn in Hpoints, Htyped, Htotal. rewrite tally_total_empty in Htotal.
  assert (Hrouted : Forall2 well_routed (points_to_write b) (parsed_sentences b))
    by (apply (processes_well_routed _ _ _ _ _ Hproc); constructor).
  assert (Hregistered : Forall (λ key, key ∈ registered_keys)
                          (parsed_sentences b)).
  { clear -Hrouted. induction Hrouted as [|p key ps keys [Hm _] _ IH];
      constructor; [|done]. by eapply measurement_of_key_registered. }
  split_and!.
  - rewrite count_types_total. lia.
  - rewrite group_measurements_total by done. lia.
  - intros key. rewrite !count_types_lookup, count_label_typed_skips.
    destruct (String.eqb_spec key "invalid") as [->|Hk1];
      [|destruct (String.eqb_spec key "embedded-newlines") as [->|Hk2]];
      cbn [negb andb].
    + destruct (sentence_type_counts b !! "invalid") as [n|] eqn:Hn.
      { by destruct (processes_tally_keys _ _ _ _ _ Hproc
                       ltac:(intros ? ?; cbn; by rewrite lookup_empty) _ _ Hn). }
      rewrite count_label_absent; [done|].
      intros Hin. rewrite Forall_forall in Hregistered.
      apply Hregistered in Hin. revert Hin. unfold registered_keys.
      not_in_list.
    + destruct (sentence_type_counts b !! "embedded-newlines") as [n|] eqn:Hn.
      { by destruct (processes_tally_keys _ _ _ _ _ Hproc
                       ltac:(intros ? ?; cbn; by rewrite lookup_empty) _ _ Hn). }
      rewrite count_label_absent; [done|].
      intros Hin. rewrite Forall_forall in Hregistered.
      apply Hregistered in Hin. revert Hin. unfold registered_keys.
      not_in_list.
    + pose proof (processes_tally_by_key _ _ _ _ _ key Hproc Hk1 Hk2) as Hk.
      cbn in Hk. rewrite lookup_empty in Hk. cbn in Hk. lia.
  - rewrite !count_types_total. lia.
  - rewrite Htotal. apply inj_le, List.filter_length_le.
Qed.

End AnswerCounts.

Lemma answer_counts_add_up_witness :
  ∃ response w',
    @gps_endpoint sample_env accepting_storage ascii_codec
      ("$GPRMC,fix" +:+ String CR (String LF "junk") +:+ String LF "$GPGSV,3,1,11")
      initial_world = (Ok response, w')
    ∧ sentences_processed response = 3
    ∧ response_points_written response = 2
    ∧ points_written (stats w') = 2
    ∧ tally_total (measurement_types response) = 2.
Proof.
  destruct (@gps_endpoint sample_env accepting_storage ascii_codec
              ("$GPRMC,fix" +:+ String CR (String LF "junk")
               +:+ String LF "$GPGSV,3,1,11") initial_world)
    as [r w'] eqn:Hrun.
  assert (Hvalue := Hrun). vm_compute in Hvalue.
  destruct r as [response|e]; [|discriminate Hvalue].
  destruct (@answer_counts_add_up sample_env accepting_storage ascii_codec
              _ _ _ _ Hrun)
    as (_ & Hmeasured & _).
  exists response, w'. rewrite Hmeasured.
  injection Hvalue as <- <-. split_and!; try done; vm_compute; reflexivity.
Defined.
